(** * cyber-buddies: the append-style file hiding engine of [stego_cli.cpp]

    A shallow embedding of the engine (header codec, capacity policy,
    embed and extract pipelines, output-name finalisation) and the
    properties of it that the specification states.

    Conventions.
    - [std::string] and [vector<unsigned char>] are [list byte].
    - [uint16_t], [uint32_t] and [size_t] values are [Z], with the
      wrap-around of the narrow types written out ([u16], [u32]); the
      [size_t] sums of the engine are bounded by a buffer length plus
      2^32 and do not wrap.
    - [double] is IEEE 754 binary64, computed with the executable
      operations of [SpecFloat].
    - Exceptions are the [Err] results of a small error monad; reading
      outside a buffer is the separate outcome [Undefined].
    - Console output is not modelled. *)

From Stdlib Require Import Strings.String Strings.Ascii Strings.Byte.
From Stdlib Require Import ZArith List Bool Lia.
From Stdlib Require Import Floats.SpecFloat.
Import ListNotations.
Open Scope Z_scope.

(* ================================================================== *)
(** * Bytes and fixed-width integers *)
(* ================================================================== *)

Definition Z_of_byte (b : byte) : Z := Z.of_N (Byte.to_N b).

Definition byte_of_Z (z : Z) : byte :=
  match Byte.of_N (Z.to_N (z mod 256)) with
  | Some b => b
  | None => x00
  end.

Definition byte_eqb (a b : byte) : bool := Z_of_byte a =? Z_of_byte b.

Definition u16 (z : Z) : Z := z mod 2 ^ 16.
Definition u32 (z : Z) : Z := z mod 2 ^ 32.

(** Little-endian image of an integer in [n] bytes, as [memcpy] of a
    scalar produces it on the little-endian targets the tool is built for. *)
Fixpoint le_encode (n : nat) (z : Z) : list byte :=
  match n with
  | O => []
  | S n' => byte_of_Z z :: le_encode n' (z / 256)
  end.

Fixpoint le_decode (bs : list byte) : Z :=
  match bs with
  | [] => 0
  | b :: bs' => Z_of_byte b + 256 * le_decode bs'
  end.

(** [vector(first + a, first + a + n)] for a range inside the buffer. *)
Definition slice (data : list byte) (off len : nat) : list byte :=
  firstn len (skipn off data).

Fixpoint sum_bytes (bs : list byte) : Z :=
  match bs with
  | [] => 0
  | b :: bs' => Z_of_byte b + sum_bytes bs'
  end.

(** A string literal as the bytes of a [std::string]. *)
Definition str (s : string) : list byte := list_byte_of_string s.

(* ================================================================== *)
(** * Outcomes: the exception classes, and the error monad *)
(* ================================================================== *)

Inductive AccessMessage :=
| PathEmpty (fileType : string)             (* "<type> path cannot be empty" *)
| NotAccessible (fileType : string) (path : list byte)
                                     (* "<type> not found or not accessible: <path>" *)
| CannotOpen (path : list byte)     (* "Cannot open file for reading: <path>" *)
| CannotCreate (path : list byte).  (* "Cannot create output file: <path>" *)

Inductive SizeMessage :=
| HostTooSmall                      (* "Host file too small. Minimum size: ..." *)
| HostTooSmallForAnyData            (* "Host file too small to hide any data" *)
| ExceedsAllowable (hiddenSize maxHiddenSize : Z).
                                    (* "The file to hide exceeds the allowable size. ..." *)

Inductive FormatMessage :=
| InvalidHeaderSize                 (* "Invalid header size" *)
| FileTooSmall                      (* "File too small to contain hidden data" *)
| NoHiddenData                      (* "No hidden data found in file" *)
| CorruptedHeader                   (* "Invalid or corrupted header" *)
| SizeMismatch.                     (* "Corrupted file: size mismatch" *)

Inductive SteganographyException :=
| FileSizeException (m : SizeMessage)
| FileAccessException (m : AccessMessage)
| InvalidFormatException (m : FormatMessage).

(** What a computation ends in: a value, a thrown exception, or a read
    outside the bounds of a buffer, on which the language defines no
    behaviour. *)
Inductive result (A : Type) :=
| Ok (a : A)
| Err (e : SteganographyException)
| Undefined.

Arguments Ok {A} a.
Arguments Err {A} e.
Arguments Undefined {A}.

Definition bind {A B : Type} (m : result A) (k : A -> result B) : result B :=
  match m with
  | Ok a => k a
  | Err e => Err e
  | Undefined => Undefined
  end.

Declare Scope result_scope.
Delimit Scope result_scope with result.
Notation "x <- m ;; k" := (bind m (fun x => k))
  (at level 61, m at next level, right associativity) : result_scope.
Notation "m ;;; k" := (bind m (fun _ => k))
  (at level 61, right associativity) : result_scope.
Open Scope result_scope.

(* ================================================================== *)
(** * [double] arithmetic of the capacity rule *)
(* ================================================================== *)

Module Double.

Definition prec : Z := 53.
Definition emax : Z := 1024.

(** Conversion of a [size_t] to [double] (round to nearest, ties to even). *)
Definition of_size (n : Z) : spec_float :=
  binary_normalize prec emax n 0 false.

Definition mul (x y : spec_float) : spec_float := SFmul prec emax x y.

(** The literal [0.85]: the binary64 value nearest to 85/100. *)
Definition lit_0_85 : spec_float :=
  Eval vm_compute in SFdiv prec emax (of_size 85) (of_size 100).

(** [static_cast<size_t>(x)]: the fractional part is discarded; a value
    that does not fit [size_t] has no defined conversion. *)
Definition to_size (x : spec_float) : result Z :=
  match x with
  | S754_zero _ => Ok 0
  | S754_finite s m e =>
      let z := if 0 <=? e then Z.pos m * 2 ^ e else Z.pos m / 2 ^ (- e) in
      if s then (if z =? 0 then Ok 0 else Undefined)
      else if z <? 2 ^ 64 then Ok z else Undefined
  | S754_infinity _ => Undefined
  | S754_nan => Undefined
  end.

End Double.

(* ================================================================== *)
(** * Configuration constants *)
(* ================================================================== *)

Module Config.
Definition MAX_HIDDEN_SIZE_RATIO : spec_float := Double.lit_0_85.
Definition MIN_HOST_SIZE : Z := 10240.
Definition MAGIC_SIGNATURE : Z := 0x5354454E.
Definition VERSION : Z := 0x0001.
Definition MAX_FILENAME_LENGTH : Z := 256.
End Config.

(* ================================================================== *)
(** * Object layout of [struct StegoHeader]

    The source declares the struct without any packing directive, so
    its members are laid out by the platform rule: each member at the
    next offset that is a multiple of its alignment, and the size
    rounded up to the largest member alignment.  [uint16_t] and
    [uint32_t] have their natural alignment (2 and 4), as on every
    mainstream ABI (System V x86-64 and AArch64, Windows x64). *)
(* ================================================================== *)

Module Layout.

Inductive ctype :=
| Uint16
| Uint32
| CharArray (n : Z).

Definition sizeof (t : ctype) : Z :=
  match t with
  | Uint16 => 2
  | Uint32 => 4
  | CharArray n => n
  end.

Definition alignof (t : ctype) : Z :=
  match t with
  | Uint16 => 2
  | Uint32 => 4
  | CharArray _ => 1
  end.

Definition align_up (off a : Z) : Z := ((off + a - 1) / a) * a.

(** Offsets of the members, and the first free offset after them. *)
Fixpoint place (fields : list ctype) (off : Z) : list Z * Z :=
  match fields with
  | [] => ([], off)
  | t :: rest =>
      let o := align_up off (alignof t) in
      let '(os, fin) := place rest (o + sizeof t) in
      (o :: os, fin)
  end.

Definition struct_align (fields : list ctype) : Z :=
  fold_right (fun t a => Z.max (alignof t) a) 1 fields.

Definition struct_offsets (fields : list ctype) : list Z :=
  fst (place fields 0).

Definition struct_size (fields : list ctype) : Z :=
  align_up (snd (place fields 0)) (struct_align fields).

(** The members of [StegoHeader], in declaration order. *)
Definition StegoHeader_fields : list ctype :=
  [ Uint32                                  (* magic *)
  ; Uint16                                  (* version *)
  ; Uint32                                  (* hiddenFileSize *)
  ; Uint16                                  (* filenameLength *)
  ; CharArray Config.MAX_FILENAME_LENGTH    (* filename *)
  ; Uint32                                  (* checksum *) ].

(** The sum of the member widths: what the record would occupy without
    any padding. *)
Definition packed_size (fields : list ctype) : Z :=
  fold_right (fun t a => sizeof t + a) 0 fields.

End Layout.

(** [sizeof(StegoHeader)] *)
Definition HEADER_SIZE : Z :=
  Eval vm_compute in Layout.struct_size Layout.StegoHeader_fields.

Definition off_magic : nat := 0.
Definition off_version : nat := 4.
Definition off_hiddenFileSize : nat := 8.
Definition off_filenameLength : nat := 12.
Definition off_filename : nat := 14.
Definition off_checksum : nat := 272.

(* ================================================================== *)
(** * The header record *)
(* ================================================================== *)

Record StegoHeader := mkHeader {
  magic : Z;
  version : Z;
  hiddenFileSize : Z;
  filenameLength : Z;
  filename : list byte;
  checksum : Z
}.

(** The default constructor. *)
Definition StegoHeader_init : StegoHeader :=
  {| magic := Config.MAGIC_SIGNATURE;
     version := Config.VERSION;
     hiddenFileSize := 0;
     filenameLength := 0;
     filename := repeat x00 (Z.to_nat Config.MAX_FILENAME_LENGTH);
     checksum := 0 |}.

(** The loop of [calculateChecksum]; [fuel] bounds the iterations, and
    the second loop condition stops it after at most
    [MAX_FILENAME_LENGTH] of them. *)
Fixpoint checksum_loop (h : StegoHeader) (fuel : nat) (i sum : Z) : Z :=
  match fuel with
  | O => sum
  | S fuel' =>
      if (i <? filenameLength h) && (i <? Config.MAX_FILENAME_LENGTH)
      then checksum_loop h fuel' (i + 1)
             (u32 (sum + Z_of_byte (nth (Z.to_nat i) (filename h) x00)))
      else sum
  end.

Definition calculateChecksum (h : StegoHeader) : Z :=
  checksum_loop h (Z.to_nat Config.MAX_FILENAME_LENGTH) 0
    (u32 (magic h + version h + hiddenFileSize h + filenameLength h)).

Definition validate (h : StegoHeader) : bool :=
  (magic h =? Config.MAGIC_SIGNATURE) && (checksum h =? calculateChecksum h).

(** Headers as they exist in memory: every scalar within its type and
    the name array of its declared length. *)
Record header_wf (h : StegoHeader) : Prop := {
  wf_magic : 0 <= magic h < 2 ^ 32;
  wf_version : 0 <= version h < 2 ^ 16;
  wf_size : 0 <= hiddenFileSize h < 2 ^ 32;
  wf_fnlen : 0 <= filenameLength h < 2 ^ 16;
  wf_filename : length (filename h) = Z.to_nat Config.MAX_FILENAME_LENGTH;
  wf_checksum : 0 <= checksum h < 2 ^ 32
}.

(* ================================================================== *)
(** * The file system *)
(* ================================================================== *)

(** The part of the environment the engine touches: the content of each
    readable file, and which paths can be opened for writing. *)
Record FileSystem := mkFS {
  contents : list byte -> option (list byte);
  creatable : list byte -> bool
}.

Definition path_eqb (p q : list byte) : bool :=
  if list_eq_dec byte_eq_dec p q then true else false.

(* ================================================================== *)
(** * Utils: file, path and extension helpers *)
(* ================================================================== *)

Module Utils.

(** [stat]: the size of the file, 0 when it cannot be queried. *)
Definition getFileSize (fs : FileSystem) (filename : list byte) : Z :=
  match contents fs filename with
  | Some d => Z.of_nat (length d)
  | None => 0
  end.

Definition fileExists (fs : FileSystem) (filename : list byte) : bool :=
  match contents fs filename with
  | Some _ => true
  | None => false
  end.

Definition member (c : byte) (set : list byte) : bool :=
  existsb (byte_eqb c) set.

(** [s.find_last_of(set)]: the largest index holding one of the
    characters of [set]; [None] is [string::npos]. *)
Fixpoint find_last_of (set : list byte) (s : list byte) : option nat :=
  match s with
  | [] => None
  | c :: s' =>
      match find_last_of set s' with
      | Some p => Some (S p)
      | None => if member c set then Some O else None
      end
  end.

(** [s.substr(pos)] for [pos <= s.size()]. *)
Definition substr (s : list byte) (pos : nat) : list byte := skipn pos s.

Definition slash : byte := "/"%byte.
Definition backslash : byte := "\"%byte.
Definition dot : byte := "."%byte.

Definition extractFilename (fullPath : list byte) : list byte :=
  match find_last_of [slash; backslash] fullPath with
  | None => fullPath
  | Some pos => substr fullPath (pos + 1)
  end.

(** [::tolower] in the "C" locale. *)
Definition tolower (c : byte) : byte :=
  let z := Z_of_byte c in
  if (65 <=? z) && (z <=? 90) then byte_of_Z (z + 32) else c.

Definition getExtension (filename : list byte) : list byte :=
  match find_last_of [dot] filename with
  | None => []
  | Some pos => map tolower (substr filename pos)
  end.

Definition hasExtension (userProvidedPath : list byte) : bool :=
  match find_last_of [dot] userProvidedPath,
        find_last_of [slash; backslash] userProvidedPath with
  | None, _ => false
  | Some _, None => true
  | Some outputDotPos, Some outputSlashPos =>
      (outputSlashPos <? outputDotPos)%nat
  end.

Definition generateOutputFilename
           (userProvidedPath originalFilename : list byte) : list byte :=
  match userProvidedPath with
  | [] => str "extracted_" ++ originalFilename
  | _ =>
      if hasExtension userProvidedPath
      then userProvidedPath
      else userProvidedPath ++ getExtension originalFilename
  end.

End Utils.

(* ================================================================== *)
(** * Header codec *)
(* ================================================================== *)

(** The bytes [strncpy(dest, src.c_str(), n)] writes: the characters of
    [src] up to its first NUL (the terminator of [c_str()] at the
    latest), then NULs up to [n] bytes. *)
Fixpoint strncpy_image (src : list byte) (n : nat) {struct n} : list byte :=
  match n with
  | O => []
  | S n' =>
      match src with
      | [] => repeat x00 (S n')
      | c :: src' =>
          if byte_eqb c x00 then repeat x00 (S n')
          else c :: strncpy_image src' n'
      end
  end.

Definition strncpy (dest src : list byte) (n : nat) : list byte :=
  strncpy_image src n ++ skipn n dest.

(** [arr[k] = v] for [k] inside the array. *)
Definition store (arr : list byte) (k : nat) (v : byte) : list byte :=
  firstn k arr ++ v :: skipn (S k) arr.

Definition set_hiddenFileSize (v : Z) (h : StegoHeader) : StegoHeader :=
  mkHeader (magic h) (version h) v (filenameLength h) (filename h) (checksum h).

Definition set_filenameLength (v : Z) (h : StegoHeader) : StegoHeader :=
  mkHeader (magic h) (version h) (hiddenFileSize h) v (filename h) (checksum h).

Definition set_filename (v : list byte) (h : StegoHeader) : StegoHeader :=
  mkHeader (magic h) (version h) (hiddenFileSize h) (filenameLength h) v
           (checksum h).

Definition set_checksum (v : Z) (h : StegoHeader) : StegoHeader :=
  mkHeader (magic h) (version h) (hiddenFileSize h) (filenameLength h)
           (filename h) v.

Definition createHeader (hiddenFilename : list byte) (hiddenSize : Z)
  : StegoHeader :=
  let header := StegoHeader_init in
  let header := set_hiddenFileSize (u32 hiddenSize) header in
  let name := Utils.extractFilename hiddenFilename in
  let header :=
    set_filenameLength
      (u16 (Z.min (Z.of_nat (length name)) (Config.MAX_FILENAME_LENGTH - 1)))
      header in
  let header :=
    set_filename
      (strncpy (filename header) name (Z.to_nat (filenameLength header)))
      header in
  let header :=
    set_filename
      (store (filename header) (Z.to_nat (filenameLength header)) x00)
      header in
  set_checksum (calculateChecksum header) header.

(** The padding bytes of an object are not initialised by the
    constructor; [junk] gives whatever each of them holds. *)
Definition padding (junk : nat -> byte) (from to : nat) : list byte :=
  map junk (seq from (to - from)).

(** [memcpy(buffer.data(), &header, sizeof(StegoHeader))] *)
Definition serializeHeader (junk : nat -> byte) (h : StegoHeader) : list byte :=
  le_encode 4 (magic h) ++
  le_encode 2 (version h) ++
  padding junk 6 off_hiddenFileSize ++
  le_encode 4 (hiddenFileSize h) ++
  le_encode 2 (filenameLength h) ++
  filename h ++
  padding junk 270 off_checksum ++
  le_encode 4 (checksum h).

(** [memcpy(&header, buffer.data(), sizeof(StegoHeader))] *)
Definition header_of_bytes (buffer : list byte) : StegoHeader :=
  {| magic := le_decode (slice buffer off_magic 4);
     version := le_decode (slice buffer off_version 2);
     hiddenFileSize := le_decode (slice buffer off_hiddenFileSize 4);
     filenameLength := le_decode (slice buffer off_filenameLength 2);
     filename := slice buffer off_filename (Z.to_nat Config.MAX_FILENAME_LENGTH);
     checksum := le_decode (slice buffer off_checksum 4) |}.

Definition deserializeHeader (buffer : list byte) : result StegoHeader :=
  if Z.of_nat (length buffer) <? HEADER_SIZE
  then Err (InvalidFormatException InvalidHeaderSize)
  else Ok (header_of_bytes buffer).

(* ================================================================== *)
(** * FileValidator and FileIOManager *)
(* ================================================================== *)

Module FileValidator.

Definition validateFileAccess (fs : FileSystem) (filename : list byte)
           (fileType : string) : result unit :=
  match filename with
  | [] => Err (FileAccessException (PathEmpty fileType))
  | _ =>
      if negb (Utils.fileExists fs filename)
      then Err (FileAccessException (NotAccessible fileType filename))
      else Ok tt
  end.

Definition validateAndCalculateMaxSize (hiddenSize hostSize : Z) : result Z :=
  if hostSize <? Config.MIN_HOST_SIZE
  then Err (FileSizeException HostTooSmall)
  else
    maxHiddenSize <-
      Double.to_size
        (Double.mul (Double.of_size hostSize) Config.MAX_HIDDEN_SIZE_RATIO);;
    let headerSize := HEADER_SIZE in
    if maxHiddenSize <? headerSize
    then Err (FileSizeException HostTooSmallForAnyData)
    else
      let maxHiddenSize := maxHiddenSize - headerSize in
      if hiddenSize >? maxHiddenSize
      then Err (FileSizeException (ExceedsAllowable hiddenSize maxHiddenSize))
      else Ok maxHiddenSize.

End FileValidator.

Module FileIOManager.

Definition readFile (fs : FileSystem) (filename : list byte)
  : result (list byte) :=
  match contents fs filename with
  | Some d => Ok d
  | None => Err (FileAccessException (CannotOpen filename))
  end.

Definition writeFile (fs : FileSystem) (filename data : list byte)
  : result FileSystem :=
  if creatable fs filename
  then Ok (mkFS (fun p => if path_eqb p filename then Some data
                          else contents fs p)
                (creatable fs))
  else Err (FileAccessException (CannotCreate filename)).

End FileIOManager.

(* ================================================================== *)
(** * The engine: [hideFile] and [extractFile] *)
(* ================================================================== *)

(** [vector(data.begin() + first, data.begin() + last)]; the range must
    lie inside the buffer. *)
Definition vec_range (data : list byte) (first last : Z) : result (list byte) :=
  if (0 <=? first) && (first <=? last) && (last <=? Z.of_nat (length data))
  then Ok (slice data (Z.to_nat first) (Z.to_nat (last - first)))
  else Undefined.

(** A [char] array read as a C string (conversion to [std::string]):
    the bytes before its first NUL; without one the read runs past the
    array. *)
Fixpoint c_string (arr : list byte) : result (list byte) :=
  match arr with
  | [] => Undefined
  | c :: rest =>
      if byte_eqb c x00 then Ok []
      else s <- c_string rest;; Ok (c :: s)
  end.

Module UniversalSteganography.

Definition hideFile (junk : nat -> byte) (fs : FileSystem)
           (hiddenFilePath hostFilePath outputFilePath : list byte)
  : result (FileSystem * list byte) :=
  FileValidator.validateFileAccess fs hiddenFilePath "File to hide";;;
  FileValidator.validateFileAccess fs hostFilePath "Host file";;;
  let hiddenSize := Utils.getFileSize fs hiddenFilePath in
  let hostSize := Utils.getFileSize fs hostFilePath in
  maxAllowed <- FileValidator.validateAndCalculateMaxSize hiddenSize hostSize;;
  hostData <- FileIOManager.readFile fs hostFilePath;;
  hiddenData <- FileIOManager.readFile fs hiddenFilePath;;
  let header := createHeader hiddenFilePath hiddenSize in
  let headerData := serializeHeader junk header in
  let output := hostData ++ headerData ++ hiddenData in
  let finalOutputPath :=
    Utils.generateOutputFilename outputFilePath
      (Utils.extractFilename hostFilePath) in
  fs' <- FileIOManager.writeFile fs finalOutputPath output;;
  Ok (fs', finalOutputPath).

(** One probe of the backward search: the window at [i] read as a
    header, and the test the loop applies to it. *)
Definition probe (data : list byte) (i : nat) : result bool :=
  potentialHeader <-
    vec_range data (Z.of_nat i) (Z.of_nat i + HEADER_SIZE);;
  header <- deserializeHeader potentialHeader;;
  Ok ((magic header =? Config.MAGIC_SIGNATURE) && validate header).

(** The loop [for (i = ...; i > 0; i--)], entered with the start index.
    It yields the offsets probed, in order, and [Some headerOffset]
    when [found] is set, [None] when the loop ran out. *)
Fixpoint scan_loop (data : list byte) (i : nat)
  : list nat * result (option nat) :=
  match i with
  | O => ([], Ok None)
  | S i' =>
      match probe data i with
      | Ok true => ([i], Ok (Some i))
      | Ok false =>
          let '(probes, r) := scan_loop data i' in (i :: probes, r)
      | Err e => ([i], Err e)
      | Undefined => ([i], Undefined)
      end
  end.

(** Steps 3 and 4 of [extractFile] on the bytes read: the probed
    offsets, and the header found with the hidden bytes. *)
Definition extractData (data : list byte)
  : list nat * result (StegoHeader * list byte) :=
  if Z.of_nat (length data) <? HEADER_SIZE
  then ([], Err (InvalidFormatException FileTooSmall))
  else
    let '(probes, r) :=
      scan_loop data (Z.to_nat (Z.of_nat (length data) - HEADER_SIZE)) in
    (probes,
     found <- r;;
     match found with
     | None => Err (InvalidFormatException NoHiddenData)
     | Some i =>
         let headerOffset := Z.of_nat i in
         headerData <- vec_range data headerOffset (headerOffset + HEADER_SIZE);;
         header <- deserializeHeader headerData;;
         if negb (validate header)
         then Err (InvalidFormatException CorruptedHeader)
         else
           let hiddenDataOffset := headerOffset + HEADER_SIZE in
           if hiddenDataOffset + hiddenFileSize header
                >? Z.of_nat (length data)
           then Err (InvalidFormatException SizeMismatch)
           else
             hiddenData <-
               vec_range data hiddenDataOffset
                 (hiddenDataOffset + hiddenFileSize header);;
             Ok (header, hiddenData)
     end).

Definition extractFile (fs : FileSystem)
           (hostFilePath outputFilePath : list byte)
  : result (FileSystem * list byte) :=
  FileValidator.validateFileAccess fs hostFilePath "Stego file";;;
  data <- FileIOManager.readFile fs hostFilePath;;
  hd <- snd (extractData data);;
  let '(header, hiddenData) := hd in
  originalFilename <- c_string (filename header);;
  let extractedFilename :=
    Utils.generateOutputFilename outputFilePath originalFilename in
  fs' <- FileIOManager.writeFile fs extractedFilename hiddenData;;
  Ok (fs', extractedFilename).

End UniversalSteganography.

(* ================================================================== *)
(** * Notions used to state the properties *)
(* ================================================================== *)

(** The window of [HEADER_SIZE] bytes at offset [i], read as a header. *)
Definition window (data : list byte) (i : nat) : StegoHeader :=
  header_of_bytes (slice data i (Z.to_nat HEADER_SIZE)).

(** The window at [i] passes [validate]. *)
Definition valid_at (data : list byte) (i : nat) : bool :=
  validate (window data i).

(** [hi, hi - 1, ..., lo] *)
Definition countdown (hi lo : nat) : list nat := rev (seq lo (S hi - lo)).

(** The length of the name [createHeader] records. *)
Definition name_length (hiddenFilename : list byte) : Z :=
  Z.min (Z.of_nat (length (Utils.extractFilename hiddenFilename)))
        (Config.MAX_FILENAME_LENGTH - 1).

Definition sample_header : StegoHeader :=
  Eval vm_compute in createHeader (str "notes/msg.txt") 5.

(** A small stego buffer: one host byte, the sample header, five hidden
    bytes. *)
Definition sample_stego : list byte :=
  x00 :: serializeHeader (fun _ => x00) sample_header ++ str "hello".


(** The start index of the scan over [data]. *)
Definition scan_start (data : list byte) : nat :=
  Z.to_nat (Z.of_nat (length data) - HEADER_SIZE).

(** A buffer whose window at offset 1 starts with the magic bytes but
    carries no matching checksum. *)
Definition magic_only_buffer : list byte :=
  x00 :: le_encode 4 Config.MAGIC_SIGNATURE
      ++ repeat x00 (Z.to_nat HEADER_SIZE - 4).

(** A path has a file extension: a ['.'] occurs after its last path
    separator. *)
Definition has_file_extension (path : list byte) : Prop :=
  exists pre suf,
    path = pre ++ Utils.dot :: suf /\
    forall c, In c suf -> c <> Utils.slash /\ c <> Utils.backslash.

(** The extension of a file name as written: the suffix from its last
    ['.'], empty when it has none. *)
Definition extension_of (name ext : list byte) : Prop :=
  (~ In Utils.dot name /\ ext = [])
  \/ (exists pre suf,
         name = pre ++ Utils.dot :: suf /\ ~ In Utils.dot suf /\
         ext = Utils.dot :: suf).

Definition lowercase (s : list byte) : list byte := map Utils.tolower s.

(** What a run of [hideFile] or [extractFile] reports and leaves behind:
    the path it wrote, the bytes found there, and their number. *)
Definition written_path (r : result (FileSystem * list byte))
  : result (list byte) :=
  x <- r;; Ok (snd x).

Definition written_data (r : result (FileSystem * list byte))
  : result (list byte) :=
  x <- r;;
  match contents (fst x) (snd x) with
  | Some d => Ok d
  | None => Err (FileAccessException (CannotOpen (snd x)))
  end.

Definition written_length (r : result (FileSystem * list byte)) : result Z :=
  d <- written_data r;; Ok (Z.of_nat (length d)).

(** Sample environments: a host of the minimum size, the host of the
    scenario of the specification, a short message, and a stego file. *)
Definition host_10k : list byte := repeat x00 (Z.to_nat 10240).
Definition host_20k : list byte := repeat x00 (Z.to_nat 20000).

Definition sample_fs : FileSystem :=
  mkFS (fun p =>
          if path_eqb p (str "pics/Host.PNG") then Some host_10k
          else if path_eqb p (str "big/host.bin") then Some host_20k
          else if path_eqb p (str "notes/msg.txt") then Some (str "hello")
          else if path_eqb p (str "s.bin") then Some sample_stego
          else None)
       (fun _ => true).

Definition zero_junk : nat -> byte := fun _ => x00.

(** A payload that is itself the image of a valid header, and an
    environment holding it next to the minimum-size host. *)
Definition decoy_payload : list byte :=
  serializeHeader zero_junk (createHeader (str "decoy") 0).

Definition decoy_fs : FileSystem :=
  mkFS (fun p =>
          if path_eqb p (str "pics/Host.PNG") then Some host_10k
          else if path_eqb p (str "decoy.bin") then Some decoy_payload
          else None)
       (fun _ => true).

(** [static_cast<size_t>(hostSize * Config::MAX_HIDDEN_SIZE_RATIO)] *)
Definition scaled (hostSize : Z) : result Z :=
  Double.to_size
    (Double.mul (Double.of_size hostSize) Config.MAX_HIDDEN_SIZE_RATIO).

(** The mantissa of the literal 0.85: the literal is [M085 * 2^-53]. *)
Definition M085 : Z := 7656119366529843.

(** [m / 2^s] rounded to nearest, ties to even. *)
Definition round_shift (m s : Z) : Z :=
  let q := m / 2 ^ s in
  let rem := m mod 2 ^ s in
  if 2 * rem <? 2 ^ s then q
  else if 2 * rem =? 2 ^ s then (if Z.even q then q else q + 1)
  else q + 1.

(* ================================================================== *)
(** * [main]: the command line of [stego_cli.cpp] *)
(* ================================================================== *)

(** The [try] block of [main] around an operation: a completed operation
    falls through to [return 0], a caught exception gives [return 1]
    with nothing written. *)
Definition exit_status (fs : FileSystem)
           (r : result (FileSystem * list byte)) : result (FileSystem * Z) :=
  match r with
  | Ok (fs', _) => Ok (fs', 0)
  | Err _ => Ok (fs, 1)
  | Undefined => Undefined
  end.

(** [argv] holds the [argc] arguments, the program name first. *)
Definition main (junk : nat -> byte) (fs : FileSystem)
           (argv : list (list byte)) : result (FileSystem * Z) :=
  let argc := length argv in
  if (argc <? 2)%nat then Ok (fs, 1)
  else
    let mode := nth 1 argv [] in
    if path_eqb mode (str "encode") then
      if negb (argc =? 5)%nat then Ok (fs, 1)
      else
        let coverImage := nth 2 argv [] in
        let secretFile := nth 3 argv [] in
        let outputImage := nth 4 argv [] in
        exit_status fs
          (UniversalSteganography.hideFile junk fs
             secretFile coverImage outputImage)
    else if path_eqb mode (str "decode") then
      if negb (argc =? 4)%nat then Ok (fs, 1)
      else
        let stegoImage := nth 2 argv [] in
        let outputFile := nth 3 argv [] in
        exit_status fs
          (UniversalSteganography.extractFile fs stegoImage outputFile)
    else Ok (fs, 1).

(* ================================================================== *)
(** * The interactive front end (the second program of the repository)

    Its header codec, validator and scan are the same text as in
    [stego_cli.cpp]; it differs in how the output path is chosen. *)
(* ================================================================== *)

Module Interactive.

(** [vector::resize]: cut to [n] elements, or filled up with zero bytes. *)
Definition resize (buffer : list byte) (n : nat) : list byte :=
  firstn n buffer ++ repeat x00 (n - length buffer).

(** [FileIOManager::readFileChunk]: the buffer after the call, and the
    number of bytes actually read. *)
Definition readFileChunk (fs : FileSystem) (filename buffer : list byte)
           (offset size : nat) : result (list byte * nat) :=
  match contents fs filename with
  | None => Err (FileAccessException (CannotOpen filename))
  | Some d =>
      let got := firstn size (skipn offset d) in
      let buffer := resize buffer size in
      Ok (got ++ skipn (length got) buffer, length got)
  end.

Definition hideFile (junk : nat -> byte) (fs : FileSystem)
           (hiddenFilePath hostFilePath outputFilePath : list byte)
  : result (FileSystem * list byte) :=
  FileValidator.validateFileAccess fs hiddenFilePath "File to hide";;;
  FileValidator.validateFileAccess fs hostFilePath "Host file";;;
  let hiddenSize := Utils.getFileSize fs hiddenFilePath in
  let hostSize := Utils.getFileSize fs hostFilePath in
  maxAllowed <- FileValidator.validateAndCalculateMaxSize hiddenSize hostSize;;
  hostData <- FileIOManager.readFile fs hostFilePath;;
  hiddenData <- FileIOManager.readFile fs hiddenFilePath;;
  let header := createHeader hiddenFilePath hiddenSize in
  let headerData := serializeHeader junk header in
  let output := hostData ++ headerData ++ hiddenData in
  fs' <- FileIOManager.writeFile fs outputFilePath output;;
  Ok (fs', outputFilePath).

Definition extractFile (fs : FileSystem)
           (hostFilePath outputFilePath : list byte)
  : result (FileSystem * list byte) :=
  FileValidator.validateFileAccess fs hostFilePath "Stego file";;;
  data <- FileIOManager.readFile fs hostFilePath;;
  hd <- snd (UniversalSteganography.extractData data);;
  let '(header, hiddenData) := hd in
  extractedFilename <-
    match outputFilePath with
    | [] => name <- c_string (filename header);; Ok (str "extracted_" ++ name)
    | _ => Ok outputFilePath
    end;;
  fs' <- FileIOManager.writeFile fs extractedFilename hiddenData;;
  Ok (fs', extractedFilename).

(** [ConsoleInterface::handleHideFile] on the three lines entered. *)
Definition handleHideFile (junk : nat -> byte) (fs : FileSystem)
           (hiddenFile hostFile outputFile : list byte)
  : result (FileSystem * list byte) :=
  let outputFile :=
    match outputFile with
    | [] => str "stego_" ++ Utils.extractFilename hostFile
    | _ => outputFile
    end in
  hideFile junk fs hiddenFile hostFile outputFile.

(** [ConsoleInterface::handleExtractFile] on the two lines entered. *)
Definition handleExtractFile (fs : FileSystem)
           (stegoFile outputFile : list byte)
  : result (FileSystem * list byte) :=
  extractFile fs stegoFile outputFile.

End Interactive.

(* ================================================================== *)
(** * Further notions and samples *)
(* ================================================================== *)

(** ASCII upper-case letters. *)
Definition is_upper (c : byte) : bool :=
  (65 <=? Z_of_byte c) && (Z_of_byte c <=? 90).

Definition is_separator (c : byte) : Prop :=
  c = Utils.slash \/ c = Utils.backslash.

(** The padding bytes a buffer holds, as a padding source. *)
Definition junk_of (buffer : list byte) : nat -> byte :=
  fun i => nth i buffer x00.

(** A header that no version of the tool writes: foreign version, a
    name array without terminator, and the checksum that goes with it. *)
Definition foreign_header : StegoHeader :=
  let h := mkHeader Config.MAGIC_SIGNATURE 0xBEEF 5 3
             (repeat "A"%byte 256) 0 in
  set_checksum (calculateChecksum h) h.

Definition foreign_stego : list byte :=
  x00 :: serializeHeader zero_junk foreign_header ++ str "hello".

Definition foreign_fs : FileSystem :=
  mkFS (fun p => if path_eqb p (str "f.bin") then Some foreign_stego
                 else None)
       (fun _ => true).

(** A file system that holds the small stego buffer and nothing else. *)
Definition stego_fs : FileSystem :=
  mkFS (fun p => if path_eqb p (str "s.bin") then Some sample_stego
                 else None)
       (fun _ => true).

(* ================================================================== *)
(** * Properties of bytes and the little-endian codec *)
(* ================================================================== *)

Lemma Ok_inj {A : Type} (a b : A) : Ok a = Ok b -> a = b.
Proof.
  intros H. now injection H.
Qed.

Lemma Z_of_byte_range (b : byte) : 0 <= Z_of_byte b < 256.
Proof.
  unfold Z_of_byte. pose proof (Byte.to_N_bounded b). lia.
Qed.

Lemma byte_of_Z_of_byte (b : byte) : byte_of_Z (Z_of_byte b) = b.
Proof.
  unfold byte_of_Z. pose proof (Z_of_byte_range b) as Hr.
  rewrite Z.mod_small by exact Hr.
  unfold Z_of_byte. rewrite N2Z.id, Byte.of_to_N. reflexivity.
Qed.

Lemma Z_of_byte_of_Z (z : Z) : Z_of_byte (byte_of_Z z) = z mod 256.
Proof.
  unfold byte_of_Z, Z_of_byte.
  pose proof (Z.mod_pos_bound z 256 ltac:(lia)) as Hm.
  destruct (Byte.of_N (Z.to_N (z mod 256))) as [b|] eqn:E.
  - apply Byte.to_of_N in E. rewrite E. lia.
  - apply Byte.of_N_None_iff in E. lia.
Qed.

Lemma Z_of_byte_inj (a b : byte) : Z_of_byte a = Z_of_byte b -> a = b.
Proof.
  intros H. rewrite <- (byte_of_Z_of_byte a), <- (byte_of_Z_of_byte b).
  now rewrite H.
Qed.

Lemma byte_eqb_eq (a b : byte) : byte_eqb a b = true <-> a = b.
Proof.
  unfold byte_eqb. rewrite Z.eqb_eq. split.
  - apply Z_of_byte_inj.
  - now intros ->.
Qed.

Lemma byte_eqb_neq (a b : byte) : byte_eqb a b = false <-> a <> b.
Proof.
  rewrite <- byte_eqb_eq. destruct (byte_eqb a b); split; congruence.
Qed.

Lemma le_encode_length (n : nat) (z : Z) : length (le_encode n z) = n.
Proof.
  revert z. induction n as [|n IH]; intros z; simpl; [reflexivity|].
  now rewrite IH.
Qed.

Lemma le_decode_range (bs : list byte) :
  0 <= le_decode bs < 2 ^ (8 * Z.of_nat (length bs)).
Proof.
  induction bs as [|b bs IH].
  - simpl. lia.
  - cbn [le_decode length].
    replace (8 * Z.of_nat (S (length bs))) with (8 + 8 * Z.of_nat (length bs)) by lia.
    rewrite Z.pow_add_r by lia.
    pose proof (Z_of_byte_range b). change (2 ^ 8) with 256. nia.
Qed.

Lemma le_decode_encode (n : nat) (z : Z) :
  le_decode (le_encode n z) = z mod 2 ^ (8 * Z.of_nat n).
Proof.
  revert z. induction n as [|n IH]; intros z.
  - simpl. now rewrite Z.mod_1_r.
  - cbn [le_encode le_decode]. rewrite IH, Z_of_byte_of_Z.
    replace (8 * Z.of_nat (S n)) with (8 + 8 * Z.of_nat n) by lia.
    rewrite Z.pow_add_r by lia. change (2 ^ 8) with 256.
    rewrite (Z.rem_mul_r z 256 (2 ^ (8 * Z.of_nat n))) by lia.
    reflexivity.
Qed.

Lemma le_decode_encode_small (n : nat) (z : Z) :
  0 <= z < 2 ^ (8 * Z.of_nat n) -> le_decode (le_encode n z) = z.
Proof.
  intros H. rewrite le_decode_encode. now apply Z.mod_small.
Qed.

Lemma slice_length (data : list byte) (off len : nat) :
  (off + len <= length data)%nat -> length (slice data off len) = len.
Proof.
  intros H. unfold slice. rewrite length_firstn, length_skipn. lia.
Qed.

Lemma slice_app_middle (a b c : list byte) :
  slice (a ++ b ++ c) (length a) (length b) = b.
Proof.
  unfold slice. rewrite skipn_app, skipn_all, Nat.sub_diag. simpl.
  rewrite firstn_app, firstn_all, Nat.sub_diag. simpl. apply app_nil_r.
Qed.

Lemma sum_bytes_app (a b : list byte) :
  sum_bytes (a ++ b) = sum_bytes a + sum_bytes b.
Proof.
  induction a as [|x a IH]; simpl; lia.
Qed.

Lemma sum_bytes_nonneg (a : list byte) : 0 <= sum_bytes a.
Proof.
  induction a as [|x a IH]; simpl; [lia|].
  pose proof (Z_of_byte_range x). lia.
Qed.

(* ================================================================== *)
(** * The checksum *)
(* ================================================================== *)

Lemma sum_bytes_firstn_step (l : list byte) (i k : nat) :
  sum_bytes (firstn (S k) (skipn i l)) =
  Z_of_byte (nth i l x00) + sum_bytes (firstn k (skipn (S i) l)).
Proof.
  revert i. induction l as [|x l IH]; intros i.
  - rewrite !skipn_nil, !firstn_nil. destruct i; reflexivity.
  - destruct i as [|i].
    + reflexivity.
    + cbn [skipn nth]. apply IH.
Qed.

Section Checksum.

Variable h : StegoHeader.

Lemma checksum_loop_sum (fuel : nat) :
  forall i sum,
    0 <= i ->
    Config.MAX_FILENAME_LENGTH <= i + Z.of_nat fuel ->
    0 <= sum < 2 ^ 32 ->
    checksum_loop h fuel i sum =
    u32 (sum + sum_bytes (firstn (Z.to_nat (Z.min (filenameLength h)
                                                Config.MAX_FILENAME_LENGTH - i))
                                 (skipn (Z.to_nat i) (filename h)))).
Proof.
  unfold Config.MAX_FILENAME_LENGTH.
  induction fuel as [|fuel IH]; intros i sum Hi Hfuel Hsum.
  - simpl. replace (Z.to_nat (Z.min (filenameLength h) 256 - i)) with O by lia.
    simpl. unfold u32. rewrite Z.add_0_r, Z.mod_small; lia.
  - cbn [checksum_loop]. unfold Config.MAX_FILENAME_LENGTH.
    destruct ((i <? filenameLength h) && (i <? 256)) eqn:C.
    + apply andb_true_iff in C. destruct C as [C1 C2].
      apply Z.ltb_lt in C1, C2.
      rewrite IH; try lia.
      2:{ unfold u32. apply Z.mod_pos_bound. lia. }
      replace (Z.to_nat (Z.min (filenameLength h) 256 - i))
        with (S (Z.to_nat (Z.min (filenameLength h) 256 - (i + 1)))) by lia.
      rewrite sum_bytes_firstn_step.
      replace (Z.to_nat (i + 1)) with (S (Z.to_nat i)) by lia.
      unfold u32. rewrite Zplus_mod_idemp_l. f_equal. lia.
    + replace (Z.to_nat (Z.min (filenameLength h) 256 - i)) with O.
      * simpl. unfold u32. rewrite Z.add_0_r, Z.mod_small; lia.
      * apply andb_false_iff in C.
        destruct C as [C|C]; apply Z.ltb_ge in C; lia.
Qed.

(** The value [calculateChecksum] returns, in closed form. *)
Lemma calculateChecksum_closed :
  (length (filename h) <= Z.to_nat Config.MAX_FILENAME_LENGTH)%nat ->
  calculateChecksum h =
  u32 (magic h + version h + hiddenFileSize h + filenameLength h
       + sum_bytes (firstn (Z.to_nat (filenameLength h)) (filename h))).
Proof.
  intros Hlen. unfold calculateChecksum.
  rewrite checksum_loop_sum.
  - rewrite Z.sub_0_r. cbn [Z.to_nat skipn].
    unfold u32. rewrite Zplus_mod_idemp_l. f_equal. f_equal.
    unfold Config.MAX_FILENAME_LENGTH in *.
    destruct (Z.le_gt_cases (filenameLength h) 256) as [Hle|Hgt].
    + now rewrite Z.min_l by lia.
    + rewrite Z.min_r by lia.
      rewrite !firstn_all2; try reflexivity; lia.
  - lia.
  - unfold Config.MAX_FILENAME_LENGTH. lia.
  - unfold u32. apply Z.mod_pos_bound. lia.
Qed.

End Checksum.

(* ================================================================== *)
(** * [createHeader] *)
(* ================================================================== *)

Lemma skipn_repeat_byte (x : byte) (n k : nat) :
  skipn k (repeat x n) = repeat x (n - k).
Proof.
  revert k. induction n as [|n IH]; intros k.
  - now rewrite skipn_nil.
  - destruct k as [|k]; [reflexivity|]. simpl. apply IH.
Qed.

Lemma strncpy_image_length (src : list byte) (n : nat) :
  length (strncpy_image src n) = n.
Proof.
  revert src. induction n as [|n IH]; intros src; [reflexivity|].
  cbn [strncpy_image].
  destruct src as [|c src].
  - apply repeat_length.
  - destruct (byte_eqb c x00).
    + apply repeat_length.
    + simpl. now rewrite IH.
Qed.

(** A source without NUL among its first [n] characters is copied as it is. *)
Lemma strncpy_image_no_nul (src : list byte) (n : nat) :
  (n <= length src)%nat ->
  ~ In x00 (firstn n src) ->
  strncpy_image src n = firstn n src.
Proof.
  revert src. induction n as [|n IH]; intros src Hlen Hnul; [reflexivity|].
  destruct src as [|c src]; [simpl in Hlen; lia|].
  cbn [strncpy_image firstn] in *.
  destruct (byte_eqb c x00) eqn:E.
  - apply byte_eqb_eq in E. subst c. exfalso. apply Hnul. now left.
  - f_equal. apply IH.
    + simpl in Hlen. lia.
    + intros Hin. apply Hnul. now right.
Qed.

Lemma name_length_range (p : list byte) : 0 <= name_length p <= 255.
Proof.
  unfold name_length, Config.MAX_FILENAME_LENGTH. lia.
Qed.

(** The header [createHeader] returns, field by field. *)
Lemma createHeader_fields (p : list byte) (size : Z) :
  let name := Utils.extractFilename p in
  let k := name_length p in
  let filled :=
    mkHeader Config.MAGIC_SIGNATURE Config.VERSION (u32 size) k
      (strncpy_image name (Z.to_nat k) ++ repeat x00 (256 - Z.to_nat k)) 0 in
  createHeader p size = set_checksum (calculateChecksum filled) filled.
Proof.
  intros name k filled.
  pose proof (name_length_range p) as Hk. fold k in Hk.
  assert (Hu : u16 (Z.min (Z.of_nat (length name)) (Config.MAX_FILENAME_LENGTH - 1)) = k).
  { unfold u16. apply Z.mod_small. fold (name_length p). fold k. lia. }
  assert (Hname :
    store (strncpy (repeat x00 (Z.to_nat Config.MAX_FILENAME_LENGTH)) name (Z.to_nat k))
          (Z.to_nat k) x00
    = strncpy_image name (Z.to_nat k) ++ repeat x00 (256 - Z.to_nat k)).
  { unfold store, strncpy.
    pose proof (strncpy_image_length name (Z.to_nat k)) as HL.
    rewrite firstn_app, HL, Nat.sub_diag, firstn_O, app_nil_r.
    rewrite firstn_all2 by lia.
    rewrite skipn_app, HL.
    rewrite (skipn_all2 (strncpy_image name (Z.to_nat k))) by lia.
    replace (S (Z.to_nat k) - Z.to_nat k)%nat with 1%nat by lia.
    rewrite skipn_repeat_byte.
    change (Z.to_nat Config.MAX_FILENAME_LENGTH) with 256%nat.
    replace (256 - Z.to_nat k)%nat with (S (255 - Z.to_nat k)) by lia.
    simpl. reflexivity. }
  unfold createHeader.
  fold name.
  cbn [set_hiddenFileSize set_filenameLength set_filename filenameLength
       filename magic version hiddenFileSize checksum StegoHeader_init].
  rewrite Hu, Hname. reflexivity.
Qed.

Lemma createHeader_wf (p : list byte) (size : Z) :
  header_wf (createHeader p size).
Proof.
  rewrite createHeader_fields.
  pose proof (name_length_range p) as Hk.
  assert (HL : length (strncpy_image (Utils.extractFilename p)
                         (Z.to_nat (name_length p))
                       ++ repeat x00 (256 - Z.to_nat (name_length p))) = 256%nat).
  { rewrite length_app, strncpy_image_length, repeat_length. lia. }
  constructor; cbn [set_checksum magic version hiddenFileSize filenameLength
                    filename checksum].
  - unfold Config.MAGIC_SIGNATURE. lia.
  - unfold Config.VERSION. lia.
  - unfold u32. apply Z.mod_pos_bound. lia.
  - lia.
  - exact HL.
  - rewrite calculateChecksum_closed.
    + unfold u32. apply Z.mod_pos_bound. lia.
    + cbn [filename]. rewrite HL. change (Z.to_nat Config.MAX_FILENAME_LENGTH) with 256%nat. lia.
Qed.

Lemma calculateChecksum_set_checksum (c : Z) (h : StegoHeader) :
  calculateChecksum (set_checksum c h) = calculateChecksum h.
Proof.
  unfold calculateChecksum.
  cbn [set_checksum magic version hiddenFileSize filenameLength].
  generalize (u32 (magic h + version h + hiddenFileSize h + filenameLength h)).
  generalize 0 at 1 2.
  induction (Z.to_nat Config.MAX_FILENAME_LENGTH) as [|fuel IH]; intros i s;
    [reflexivity|].
  cbn [checksum_loop set_checksum filenameLength filename].
  destruct ((i <? filenameLength h) && (i <? Config.MAX_FILENAME_LENGTH));
    [apply IH|reflexivity].
Qed.

Lemma createHeader_validate (p : list byte) (size : Z) :
  validate (createHeader p size) = true.
Proof.
  rewrite createHeader_fields.
  unfold validate. rewrite calculateChecksum_set_checksum.
  cbn [set_checksum magic checksum].
  now rewrite !Z.eqb_refl.
Qed.

(** C5. [validate] accepts a header exactly when its magic is the
    constant and its stored checksum is the sum, modulo 2^32, of magic,
    version, payload size, name length and the first [filenameLength]
    bytes of the name (each as an unsigned value); and every header
    [createHeader] builds is well formed and accepted. *)
Theorem validate_iff_magic_and_checksum (h : StegoHeader) (Hwf : header_wf h) :
  (validate h = true <->
   magic h = Config.MAGIC_SIGNATURE /\
   checksum h =
     (magic h + version h + hiddenFileSize h + filenameLength h
      + sum_bytes (firstn (Z.to_nat (filenameLength h)) (filename h)))
     mod 2 ^ 32)
  /\ (forall hiddenFilename hiddenSize,
        header_wf (createHeader hiddenFilename hiddenSize) /\
        validate (createHeader hiddenFilename hiddenSize) = true).
Proof.
  split.
  - unfold validate. rewrite andb_true_iff, !Z.eqb_eq.
    rewrite calculateChecksum_closed by (rewrite (wf_filename h Hwf); lia).
    reflexivity.
  - intros p size. split.
    + apply createHeader_wf.
    + apply createHeader_validate.
Qed.

Lemma sample_header_wf : header_wf sample_header.
Proof.
  constructor; vm_compute; try (split; congruence); reflexivity.
Defined.

Lemma validate_iff_magic_and_checksum_witness :
  (validate sample_header = true <->
   magic sample_header = Config.MAGIC_SIGNATURE /\
   checksum sample_header =
     (magic sample_header + version sample_header
      + hiddenFileSize sample_header + filenameLength sample_header
      + sum_bytes (firstn (Z.to_nat (filenameLength sample_header))
                          (filename sample_header)))
     mod 2 ^ 32).
Proof.
  exact (proj1 (validate_iff_magic_and_checksum sample_header sample_header_wf)).
Defined.

(* ================================================================== *)
(** * Serialisation *)
(* ================================================================== *)

Lemma slice_app_skip (a rest : list byte) (off len : nat) :
  (length a <= off)%nat ->
  slice (a ++ rest) off len = slice rest (off - length a) len.
Proof.
  intros H. unfold slice. rewrite skipn_app.
  rewrite (skipn_all2 a) by exact H. reflexivity.
Qed.

Lemma slice_app_take (b rest : list byte) (len : nat) :
  length b = len -> slice (b ++ rest) 0 len = b.
Proof.
  intros H. unfold slice. cbn [skipn].
  rewrite firstn_app, H, Nat.sub_diag, firstn_O, app_nil_r.
  apply firstn_all2. lia.
Qed.

Lemma padding_length (junk : nat -> byte) (from to : nat) :
  length (padding junk from to) = (to - from)%nat.
Proof.
  unfold padding. now rewrite length_map, length_seq.
Qed.

(** The layout rule places the members where the codec reads them, and
    gives the object its size. *)
Lemma layout_StegoHeader :
  Layout.struct_offsets Layout.StegoHeader_fields =
    map Z.of_nat [off_magic; off_version; off_hiddenFileSize;
                  off_filenameLength; off_filename; off_checksum]
  /\ Layout.struct_size Layout.StegoHeader_fields = HEADER_SIZE
  /\ HEADER_SIZE = 276.
Proof.
  repeat split; reflexivity.
Qed.

Lemma serializeHeader_length (junk : nat -> byte) (h : StegoHeader) :
  length (filename h) = Z.to_nat Config.MAX_FILENAME_LENGTH ->
  Z.of_nat (length (serializeHeader junk h)) = HEADER_SIZE.
Proof.
  intros Hf. unfold serializeHeader.
  rewrite !length_app, !le_encode_length, !padding_length, Hf.
  reflexivity.
Qed.

Ltac slice_field :=
  repeat (rewrite slice_app_skip
            by (rewrite ?le_encode_length, ?padding_length; simpl; lia);
          rewrite ?le_encode_length, ?padding_length;
          cbn [Nat.sub off_magic off_version off_hiddenFileSize
               off_filenameLength off_filename off_checksum]);
  rewrite slice_app_take
    by (rewrite ?le_encode_length, ?padding_length; auto).

(** Reading back what [serializeHeader] wrote gives the header, whatever
    the padding held and whatever follows in the buffer. *)
Lemma header_of_bytes_serialize (junk : nat -> byte) (h : StegoHeader)
      (rest : list byte) :
  header_wf h ->
  header_of_bytes (serializeHeader junk h ++ rest) = h.
Proof.
  intros [Hm Hv Hs Hn Hf Hc].
  destruct h as [m v s n f c]. cbn [magic version hiddenFileSize
    filenameLength filename checksum] in *.
  unfold header_of_bytes, serializeHeader.
  cbn [magic version hiddenFileSize filenameLength filename checksum].
  rewrite <- !app_assoc.
  f_equal.
  - unfold off_magic. slice_field. now apply le_decode_encode_small.
  - unfold off_version. slice_field. now apply le_decode_encode_small.
  - unfold off_hiddenFileSize. slice_field. now apply le_decode_encode_small.
  - unfold off_filenameLength. slice_field. now apply le_decode_encode_small.
  - unfold off_filename.
    repeat (rewrite slice_app_skip
              by (rewrite ?le_encode_length, ?padding_length; simpl; lia);
            rewrite ?le_encode_length, ?padding_length;
            cbn [Nat.sub off_hiddenFileSize]).
    now rewrite slice_app_take.
  - unfold off_checksum.
    repeat (rewrite slice_app_skip
              by (rewrite ?le_encode_length, ?padding_length, ?Hf; simpl; lia);
            rewrite ?le_encode_length, ?padding_length, ?Hf;
            cbn [Nat.sub off_hiddenFileSize off_checksum Z.to_nat
                 Config.MAX_FILENAME_LENGTH Pos.to_nat Pos.iter_op Nat.add]).
    rewrite slice_app_take by (now rewrite le_encode_length).
    now apply le_decode_encode_small.
Qed.

(** Every byte window read as a header is well formed. *)
Lemma header_of_bytes_wf (w : list byte) :
  (Z.to_nat HEADER_SIZE <= length w)%nat ->
  header_wf (header_of_bytes w).
Proof.
  intros Hlen. change (Z.to_nat HEADER_SIZE) with 276%nat in Hlen.
  assert (R : forall off len, (off + len <= 276)%nat ->
                0 <= le_decode (slice w off len) < 2 ^ (8 * Z.of_nat len)).
  { intros off len Hb.
    pose proof (le_decode_range (slice w off len)) as H.
    rewrite slice_length in H by lia. exact H. }
  constructor; cbn [header_of_bytes magic version hiddenFileSize
                    filenameLength filename checksum].
  - apply (R off_magic 4%nat). unfold off_magic. lia.
  - apply (R off_version 2%nat). unfold off_version. lia.
  - apply (R off_hiddenFileSize 4%nat). unfold off_hiddenFileSize. lia.
  - apply (R off_filenameLength 2%nat). unfold off_filenameLength. lia.
  - apply slice_length. unfold off_filename.
    change (Z.to_nat Config.MAX_FILENAME_LENGTH) with 256%nat. lia.
  - apply (R off_checksum 4%nat). unfold off_checksum. lia.
Qed.

(* ================================================================== *)
(** * The backward scan *)
(* ================================================================== *)

Import UniversalSteganography.

Lemma vec_range_in_bounds (data : list byte) (first last : Z) :
  0 <= first <= last -> last <= Z.of_nat (length data) ->
  vec_range data first last =
  Ok (slice data (Z.to_nat first) (Z.to_nat (last - first))).
Proof.
  intros H1 H2. unfold vec_range.
  replace (0 <=? first) with true by (symmetry; apply Z.leb_le; lia).
  replace (first <=? last) with true by (symmetry; apply Z.leb_le; lia).
  replace (last <=? Z.of_nat (length data)) with true
    by (symmetry; apply Z.leb_le; lia).
  reflexivity.
Qed.

Lemma vec_range_not_Err (data : list byte) (first last : Z) e :
  vec_range data first last <> Err e.
Proof.
  unfold vec_range. destruct (_ && _); discriminate.
Qed.

Lemma validate_magic (h : StegoHeader) :
  (magic h =? Config.MAGIC_SIGNATURE) && validate h = validate h.
Proof.
  unfold validate. destruct (magic h =? Config.MAGIC_SIGNATURE); reflexivity.
Qed.

Lemma deserializeHeader_window (data : list byte) (i : nat) :
  (i + Z.to_nat HEADER_SIZE <= length data)%nat ->
  deserializeHeader (slice data i (Z.to_nat HEADER_SIZE)) = Ok (window data i).
Proof.
  intros H. unfold deserializeHeader.
  rewrite slice_length by exact H.
  rewrite Z2Nat.id by (unfold HEADER_SIZE; lia).
  now rewrite Z.ltb_irrefl.
Qed.

(** A probe inside the buffer reads the window and applies [validate]. *)
Lemma probe_in_bounds (data : list byte) (i : nat) :
  (i + Z.to_nat HEADER_SIZE <= length data)%nat ->
  probe data i = Ok (valid_at data i).
Proof.
  intros H. unfold probe.
  assert (HH : HEADER_SIZE = 276) by reflexivity.
  rewrite vec_range_in_bounds by lia.
  cbn [bind]. rewrite Nat2Z.id.
  replace (Z.of_nat i + HEADER_SIZE - Z.of_nat i) with HEADER_SIZE by lia.
  rewrite deserializeHeader_window by exact H.
  cbn [bind]. now rewrite validate_magic.
Qed.

(** A probe answers [true] only for a window that passes [validate]. *)
Lemma probe_true (data : list byte) (i : nat) :
  probe data i = Ok true -> valid_at data i = true.
Proof.
  unfold probe, vec_range.
  destruct (_ && _) eqn:B; [|discriminate].
  cbn [bind]. rewrite Nat2Z.id.
  replace (Z.of_nat i + HEADER_SIZE - Z.of_nat i) with HEADER_SIZE by lia.
  unfold deserializeHeader.
  destruct (_ <? _); [discriminate|].
  cbn [bind]. rewrite validate_magic. intros H. injection H as H. exact H.
Qed.

Lemma countdown_cons (hi lo : nat) :
  (lo <= S hi)%nat -> countdown (S hi) lo = S hi :: countdown hi lo.
Proof.
  intros H. unfold countdown.
  replace (S (S hi) - lo)%nat with (S (S hi - lo)) by lia.
  rewrite seq_S, rev_app_distr.
  replace (lo + (S hi - lo))%nat with (S hi) by lia. reflexivity.
Qed.

Lemma countdown_single (k : nat) : countdown k k = [k].
Proof.
  unfold countdown. replace (S k - k)%nat with 1%nat by lia. reflexivity.
Qed.

Lemma in_countdown (hi lo j : nat) :
  In j (countdown hi lo) <-> (lo <= j <= hi)%nat.
Proof.
  unfold countdown. rewrite <- in_rev, in_seq. lia.
Qed.

(** What the loop computes when started inside the buffer: it probes
    downward from the start index, stops at the first valid window, and
    otherwise runs down to index 1. *)
Lemma scan_loop_spec (data : list byte) (i : nat) :
  (i + Z.to_nat HEADER_SIZE <= length data)%nat ->
  (exists k,
      scan_loop data i = (countdown i k, Ok (Some k)) /\
      (1 <= k <= i)%nat /\
      valid_at data k = true /\
      (forall j, (k < j <= i)%nat -> valid_at data j = false))
  \/
  (scan_loop data i = (countdown i 1, Ok None) /\
   (forall j, (1 <= j <= i)%nat -> valid_at data j = false)).
Proof.
  induction i as [|i IH]; intros Hb.
  - right. split; [reflexivity|]. intros j Hj. lia.
  - cbn [scan_loop]. rewrite probe_in_bounds by exact Hb.
    destruct (valid_at data (S i)) eqn:V.
    + left. exists (S i). rewrite countdown_single.
      repeat split; try lia; try assumption.
    + destruct IH as [[k [E [Hk [Vk Hall]]]] | [E Hall]]; [lia| |].
      * left. exists k. rewrite E, countdown_cons by lia.
        repeat split; try lia; try assumption.
        intros j Hj. destruct (Nat.eq_dec j (S i)) as [->|Hne];
          [exact V | apply Hall; lia].
      * right. rewrite E, countdown_cons by lia.
        split; [reflexivity|].
        intros j Hj. destruct (Nat.eq_dec j (S i)) as [->|Hne];
          [exact V | apply Hall; lia].
Qed.

(** The scan finds a given valid window when every window above it, up
    to the start index, is invalid. *)
Lemma scan_loop_finds (data : list byte) (i k : nat) :
  (i + Z.to_nat HEADER_SIZE <= length data)%nat ->
  (1 <= k <= i)%nat ->
  valid_at data k = true ->
  (forall j, (k < j <= i)%nat -> valid_at data j = false) ->
  scan_loop data i = (countdown i k, Ok (Some k)).
Proof.
  intros Hb Hk Vk Hall.
  destruct (scan_loop_spec data i Hb) as [[k' [E [Hk' [Vk' Hall']]]] | [E Hnone]].
  - assert (k' = k).
    { destruct (Nat.lt_trichotomy k' k) as [L|[L|L]]; [|exact L|].
      - rewrite Hall' in Vk by lia. discriminate.
      - rewrite Hall in Vk' by lia. discriminate. }
    subst k'. exact E.
  - rewrite Hnone in Vk by lia. discriminate.
Qed.

(** Wherever the loop is started, an offset it reports answered [true]
    to its probe. *)
Lemma scan_loop_found (data : list byte) (i k : nat) :
  snd (scan_loop data i) = Ok (Some k) ->
  probe data k = Ok true /\ (1 <= k <= i)%nat.
Proof.
  induction i as [|i IH]; cbn [scan_loop].
  - simpl. discriminate.
  - destruct (probe data (S i)) as [[|]| |] eqn:P; cbn [snd].
    + intros H. injection H as <-. split; [exact P | lia].
    + destruct (scan_loop data i) as [probes r]. cbn [snd] in *.
      intros H. destruct (IH H) as [H1 H2]. split; [exact H1 | lia].
    + discriminate.
    + discriminate.
Qed.

(* ================================================================== *)
(** * [extractData]: what the extraction does with the bytes read *)
(* ================================================================== *)

Lemma scan_start_bound (data : list byte) :
  HEADER_SIZE <= Z.of_nat (length data) ->
  (scan_start data + Z.to_nat HEADER_SIZE <= length data)%nat.
Proof.
  unfold scan_start. assert (HEADER_SIZE = 276) by reflexivity. lia.
Qed.

Lemma extractData_unfold (data : list byte) :
  HEADER_SIZE <= Z.of_nat (length data) ->
  extractData data =
  (fst (scan_loop data (scan_start data)),
   found <- snd (scan_loop data (scan_start data));;
   match found with
   | None => Err (InvalidFormatException NoHiddenData)
   | Some i =>
       let headerOffset := Z.of_nat i in
       headerData <- vec_range data headerOffset (headerOffset + HEADER_SIZE);;
       header <- deserializeHeader headerData;;
       if negb (validate header)
       then Err (InvalidFormatException CorruptedHeader)
       else
         let hiddenDataOffset := headerOffset + HEADER_SIZE in
         if hiddenDataOffset + hiddenFileSize header >? Z.of_nat (length data)
         then Err (InvalidFormatException SizeMismatch)
         else
           hiddenData <-
             vec_range data hiddenDataOffset
               (hiddenDataOffset + hiddenFileSize header);;
           Ok (header, hiddenData)
   end).
Proof.
  intros H. unfold extractData.
  replace (Z.of_nat (length data) <? HEADER_SIZE) with false
    by (symmetry; apply Z.ltb_ge; exact H).
  fold (scan_start data).
  destruct (scan_loop data (scan_start data)) as [probes r]. reflexivity.
Qed.

(** Once the scan has settled on offset [k], the rest of the extraction
    is decided by the size recorded in that window. *)
Lemma extractData_found (data : list byte) (k : nat) :
  HEADER_SIZE <= Z.of_nat (length data) ->
  snd (scan_loop data (scan_start data)) = Ok (Some k) ->
  snd (extractData data) =
  if Z.of_nat k + HEADER_SIZE + hiddenFileSize (window data k)
       >? Z.of_nat (length data)
  then Err (InvalidFormatException SizeMismatch)
  else Ok (window data k,
           slice data (k + Z.to_nat HEADER_SIZE)
                 (Z.to_nat (hiddenFileSize (window data k)))).
Proof.
  intros Hlen Hscan.
  assert (HH : HEADER_SIZE = 276) by reflexivity.
  pose proof (scan_start_bound data Hlen) as Hb.
  destruct (scan_loop_found _ _ _ Hscan) as [Hp Hk].
  apply probe_true in Hp.
  rewrite extractData_unfold by exact Hlen.
  cbn [snd]. rewrite Hscan. cbn [bind].
  rewrite vec_range_in_bounds by lia.
  cbn [bind]. rewrite Nat2Z.id.
  replace (Z.of_nat k + HEADER_SIZE - Z.of_nat k) with HEADER_SIZE by lia.
  rewrite deserializeHeader_window by lia.
  cbn [bind]. fold (valid_at data k). rewrite Hp. cbn [negb].
  destruct (_ >? _) eqn:C; [reflexivity|].
  assert (Hwf : header_wf (window data k)).
  { apply header_of_bytes_wf. rewrite slice_length; lia. }
  pose proof (wf_size _ Hwf) as Hs.
  rewrite Z.gtb_ltb in C. apply Z.ltb_ge in C.
  rewrite vec_range_in_bounds by lia.
  cbn [bind]. do 3 f_equal; lia.
Qed.

(** The extraction never reads outside the buffer. *)
Lemma extractData_defined (data : list byte) :
  snd (extractData data) <> Undefined.
Proof.
  destruct (Z.lt_ge_cases (Z.of_nat (length data)) HEADER_SIZE) as [Hs|Hlen].
  - unfold extractData.
    replace (Z.of_nat (length data) <? HEADER_SIZE) with true
      by (symmetry; apply Z.ltb_lt; exact Hs).
    discriminate.
  - destruct (scan_loop_spec data (scan_start data) (scan_start_bound data Hlen))
      as [[k [E _]] | [E _]].
    + rewrite (extractData_found data k Hlen) by (now rewrite E).
      destruct (_ >? _); discriminate.
    + rewrite extractData_unfold by exact Hlen. rewrite E. discriminate.
Qed.

(** C3. The scan probes the window offsets from [length - HEADER_SIZE]
    downward, never offset 0; it stops at the first probed offset whose
    window passes [validate], which is the largest such offset; and when
    no probed window is valid the extraction fails with
    "No hidden data found in file". *)
Theorem backward_scan_first_valid_from_tail (data : list byte)
        (Hlen : HEADER_SIZE <= Z.of_nat (length data)) :
  let start := scan_start data in
  exists found : option nat,
    let last := match found with Some k => k | None => 1%nat end in
    scan_loop data start = (countdown start last, Ok found) /\
    fst (extractData data) = countdown start last /\
    ~ In 0%nat (fst (extractData data)) /\
    match found with
    | Some k =>
        (1 <= k <= start)%nat /\
        valid_at data k = true /\
        (forall j, (k < j <= start)%nat -> valid_at data j = false)
    | None =>
        (forall j, (1 <= j <= start)%nat -> valid_at data j = false) /\
        snd (extractData data) = Err (InvalidFormatException NoHiddenData)
    end.
Proof.
  intros start.
  pose proof (scan_start_bound data Hlen) as Hb. fold start in Hb.
  destruct (scan_loop_spec data start Hb)
    as [[k [E [Hk [Vk Hall]]]] | [E Hall]].
  - exists (Some k). cbn zeta.
    rewrite extractData_unfold by exact Hlen. fold start. rewrite E.
    cbn [fst]. repeat split; try assumption; try lia.
    rewrite in_countdown. lia.
  - exists None. cbn zeta.
    rewrite extractData_unfold by exact Hlen. fold start. rewrite E.
    cbn [fst snd bind]. repeat split; try assumption.
    rewrite in_countdown. lia.
Qed.

Lemma sample_stego_length : HEADER_SIZE <= Z.of_nat (length sample_stego).
Proof.
  vm_compute. discriminate.
Defined.

Lemma backward_scan_first_valid_from_tail_witness :
  exists found : option nat,
    let last := match found with Some k => k | None => 1%nat end in
    scan_loop sample_stego (scan_start sample_stego)
      = (countdown (scan_start sample_stego) last, Ok found) /\
    fst (extractData sample_stego) = countdown (scan_start sample_stego) last /\
    ~ In 0%nat (fst (extractData sample_stego)) /\
    match found with
    | Some k =>
        (1 <= k <= scan_start sample_stego)%nat /\
        valid_at sample_stego k = true /\
        (forall j, (k < j <= scan_start sample_stego)%nat ->
                   valid_at sample_stego j = false)
    | None =>
        (forall j, (1 <= j <= scan_start sample_stego)%nat ->
                   valid_at sample_stego j = false) /\
        snd (extractData sample_stego)
          = Err (InvalidFormatException NoHiddenData)
    end.
Proof.
  exact (backward_scan_first_valid_from_tail sample_stego sample_stego_length).
Defined.

(** C6. Once the scan has found a header at [headerOffset]: if
    [headerOffset + HEADER_SIZE + hiddenFileSize] exceeds the length of
    the data, the extraction fails with "Corrupted file: size mismatch";
    otherwise exactly [hiddenFileSize] bytes starting at
    [headerOffset + HEADER_SIZE] are taken as the hidden data.  In no
    case is the buffer read outside its bounds. *)
Theorem size_mismatch_or_exact_slice (data : list byte) (k : nat)
        (Hlen : HEADER_SIZE <= Z.of_nat (length data))
        (Hscan : snd (scan_loop data (scan_start data)) = Ok (Some k)) :
  let header := window data k in
  let headerOffset := Z.of_nat k in
  (headerOffset + HEADER_SIZE + hiddenFileSize header > Z.of_nat (length data) ->
   snd (extractData data) = Err (InvalidFormatException SizeMismatch))
  /\
  (headerOffset + HEADER_SIZE + hiddenFileSize header <= Z.of_nat (length data) ->
   exists hiddenData,
     snd (extractData data) = Ok (header, hiddenData) /\
     hiddenData = slice data (Z.to_nat (headerOffset + HEADER_SIZE))
                        (Z.to_nat (hiddenFileSize header)) /\
     Z.of_nat (length hiddenData) = hiddenFileSize header)
  /\
  (forall anyData, snd (extractData anyData) <> Undefined).
Proof.
  intros header headerOffset.
  assert (HH : HEADER_SIZE = 276) by reflexivity.
  pose proof (extractData_found data k Hlen Hscan) as E.
  fold header in E. fold headerOffset in E.
  assert (Hwf : header_wf header).
  { apply header_of_bytes_wf.
    pose proof (scan_start_bound data Hlen).
    destruct (scan_loop_found _ _ _ Hscan) as [_ Hk].
    rewrite slice_length; lia. }
  pose proof (wf_size _ Hwf) as Hs.
  split; [|split].
  - intros Hgt. rewrite E.
    replace (_ >? _) with true; [reflexivity|].
    symmetry. apply Z.gtb_lt. lia.
  - intros Hle. rewrite E.
    replace (_ >? _) with false.
    2:{ symmetry. rewrite Z.gtb_ltb. apply Z.ltb_ge. lia. }
    eexists. split; [reflexivity|]. split.
    + f_equal. unfold headerOffset. lia.
    + rewrite slice_length; unfold headerOffset in *; lia.
  - apply extractData_defined.
Qed.

Lemma sample_stego_scan :
  snd (scan_loop sample_stego (scan_start sample_stego)) = Ok (Some 1%nat).
Proof.
  vm_compute. reflexivity.
Defined.

Lemma size_mismatch_or_exact_slice_witness :
  exists hiddenData,
    snd (extractData sample_stego) = Ok (window sample_stego 1, hiddenData) /\
    hiddenData = slice sample_stego (Z.to_nat (Z.of_nat 1 + HEADER_SIZE))
                       (Z.to_nat (hiddenFileSize (window sample_stego 1))) /\
    Z.of_nat (length hiddenData) = hiddenFileSize (window sample_stego 1).
Proof.
  apply (proj1 (proj2 (size_mismatch_or_exact_slice sample_stego 1
                         sample_stego_length sample_stego_scan))).
  vm_compute. discriminate.
Defined.

(** C7, as the code has it.  The extraction fails with "File too small
    to contain hidden data" exactly when the file is shorter than
    [sizeof(StegoHeader)], which is 276 bytes, and then no window is
    probed. *)
Theorem file_too_small_iff_shorter_than_header (data : list byte) :
  (snd (extractData data) = Err (InvalidFormatException FileTooSmall)
   <-> Z.of_nat (length data) < HEADER_SIZE)
  /\ (Z.of_nat (length data) < HEADER_SIZE -> fst (extractData data) = [])
  /\ HEADER_SIZE = 276.
Proof.
  assert (Small : Z.of_nat (length data) < HEADER_SIZE ->
                  extractData data = ([], Err (InvalidFormatException FileTooSmall))).
  { intros Hs. unfold extractData.
    replace (Z.of_nat (length data) <? HEADER_SIZE) with true
      by (symmetry; apply Z.ltb_lt; exact Hs).
    reflexivity. }
  split; [split|split].
  - intros E.
    destruct (Z.lt_ge_cases (Z.of_nat (length data)) HEADER_SIZE) as [Hs|Hlen];
      [exact Hs|exfalso].
    destruct (scan_loop_spec data (scan_start data) (scan_start_bound data Hlen))
      as [[k [Es _]] | [Es _]].
    + rewrite (extractData_found data k Hlen) in E by (now rewrite Es).
      destruct (_ >? _); discriminate.
    + rewrite extractData_unfold in E by exact Hlen.
      rewrite Es in E. discriminate.
  - intros Hs. now rewrite Small.
  - intros Hs. now rewrite Small.
  - reflexivity.
Qed.

Lemma file_too_small_iff_shorter_than_header_witness :
  fst (extractData (str "tiny")) = [].
Proof.
  apply (proj1 (proj2 (file_too_small_iff_shorter_than_header (str "tiny")))).
  vm_compute. reflexivity.
Defined.

(** C7 as the specification words it fails: a file of 272 bytes is not
    shorter than 272 bytes, and is still rejected as too small. *)
Lemma file_of_272_bytes_is_too_small :
  ~ (Z.of_nat (length (repeat x00 272)) < 272) /\
  snd (extractData (repeat x00 272))
    = Err (InvalidFormatException FileTooSmall).
Proof.
  split.
  - vm_compute. discriminate.
  - vm_compute. reflexivity.
Qed.

(** C8. A probe accepts a window only when its magic equals the
    constant and its stored checksum equals the recomputed one.  A
    window that starts with the magic bytes but fails the checksum is
    rejected, and the scan never stops at it. *)
Theorem scan_accepts_only_magic_and_checksum (data : list byte) (j : nat) :
  (probe data j = Ok true ->
   magic (window data j) = Config.MAGIC_SIGNATURE /\
   checksum (window data j) = calculateChecksum (window data j))
  /\
  (magic (window data j) = Config.MAGIC_SIGNATURE ->
   checksum (window data j) <> calculateChecksum (window data j) ->
   probe data j <> Ok true /\
   (forall i, snd (scan_loop data i) <> Ok (Some j))).
Proof.
  assert (A : probe data j = Ok true ->
              magic (window data j) = Config.MAGIC_SIGNATURE /\
              checksum (window data j) = calculateChecksum (window data j)).
  { intros Hp. apply probe_true in Hp. unfold valid_at, validate in Hp.
    apply andb_true_iff in Hp. now rewrite !Z.eqb_eq in Hp. }
  split; [exact A|].
  intros Hm Hc.
  assert (B : probe data j <> Ok true).
  { intros Hp. apply Hc. now apply A. }
  split; [exact B|].
  intros i Hs. apply scan_loop_found in Hs. now apply B.
Qed.

Lemma scan_accepts_only_magic_and_checksum_witness :
  probe magic_only_buffer 1 <> Ok true /\
  (forall i, snd (scan_loop magic_only_buffer i) <> Ok (Some 1%nat)).
Proof.
  apply (proj2 (scan_accepts_only_magic_and_checksum magic_only_buffer 1)).
  - vm_compute. reflexivity.
  - vm_compute. discriminate.
Defined.

(* ================================================================== *)
(** * Output names *)
(* ================================================================== *)

Section FindLastOf.

Variable set : list byte.

Lemma find_last_of_None (s : list byte) :
  Utils.find_last_of set s = None <->
  forall c, In c s -> Utils.member c set = false.
Proof.
  induction s as [|x s IH]; cbn [Utils.find_last_of].
  - split; [intros _ c []|reflexivity].
  - destruct (Utils.find_last_of set s) as [p|] eqn:E.
    + split; [discriminate|].
      intros H. assert (Some p = None) as Hn; [|discriminate Hn].
      apply IH. intros c Hc. apply H. now right.
    + destruct (Utils.member x set) eqn:M.
      * split; [discriminate|].
        intros H. rewrite (H x) in M by now left. discriminate.
      * split; [|reflexivity].
        intros _ c [<-|Hc]; [exact M|].
        now apply (proj1 IH).
Qed.

Lemma find_last_of_Some (s : list byte) (p : nat) :
  Utils.find_last_of set s = Some p ->
  exists pre c suf,
    s = pre ++ c :: suf /\ length pre = p /\
    Utils.member c set = true /\ Utils.find_last_of set suf = None.
Proof.
  revert p. induction s as [|x s IH]; intros p; cbn [Utils.find_last_of].
  - discriminate.
  - destruct (Utils.find_last_of set s) as [q|] eqn:E.
    + intros H. injection H as <-.
      destruct (IH q eq_refl) as [pre [c [suf [Hs [Hl [Hm Hn]]]]]].
      exists (x :: pre), c, suf. subst s. simpl. auto.
    + destruct (Utils.member x set) eqn:M; [|discriminate].
      intros H. injection H as <-.
      exists [], x, s. auto.
Qed.

Lemma find_last_of_app (a b : list byte) :
  Utils.find_last_of set (a ++ b) =
  match Utils.find_last_of set b with
  | Some p => Some (length a + p)%nat
  | None => Utils.find_last_of set a
  end.
Proof.
  induction a as [|x a IH]; cbn [app Utils.find_last_of length].
  - now destruct (Utils.find_last_of set b).
  - rewrite IH. destruct (Utils.find_last_of set b); [reflexivity|].
    reflexivity.
Qed.

Lemma find_last_of_bound (s : list byte) (p : nat) :
  Utils.find_last_of set s = Some p -> (p < length s)%nat.
Proof.
  intros H. destruct (find_last_of_Some s p H) as [pre [c [suf [Hs [Hl _]]]]].
  subst s. rewrite length_app. simpl. lia.
Qed.

End FindLastOf.

Lemma member_dot (c : byte) : Utils.member c [Utils.dot] = true <-> c = Utils.dot.
Proof.
  unfold Utils.member. cbn [existsb]. rewrite orb_false_r. apply byte_eqb_eq.
Qed.

Lemma member_dot_false (c : byte) :
  Utils.member c [Utils.dot] = false <-> c <> Utils.dot.
Proof.
  rewrite <- member_dot. destruct (Utils.member c [Utils.dot]); split; congruence.
Qed.

Lemma member_separator_false (c : byte) :
  Utils.member c [Utils.slash; Utils.backslash] = false <->
  c <> Utils.slash /\ c <> Utils.backslash.
Proof.
  unfold Utils.member. cbn [existsb]. rewrite orb_false_r, orb_false_iff.
  now rewrite !byte_eqb_neq.
Qed.

(** [hasExtension] decides [has_file_extension]. *)
Lemma hasExtension_iff (path : list byte) :
  Utils.hasExtension path = true <-> has_file_extension path.
Proof.
  unfold Utils.hasExtension, has_file_extension. split.
  - destruct (Utils.find_last_of [Utils.dot] path) as [d|] eqn:D; [|discriminate].
    destruct (find_last_of_Some _ _ _ D) as [pre [c [suf [Hs [Hl [Hm Hn]]]]]].
    apply member_dot in Hm. subst c.
    intros H. exists pre, suf. split; [exact Hs|].
    intros c Hc. apply member_separator_false.
    assert (N : Utils.find_last_of [Utils.slash; Utils.backslash]
                  (Utils.dot :: suf) = None).
    { rewrite Hs, find_last_of_app in H.
      destruct (Utils.find_last_of [Utils.slash; Utils.backslash]
                  (Utils.dot :: suf)) as [q|]; [|reflexivity].
      apply Nat.ltb_lt in H. lia. }
    apply (proj1 (find_last_of_None _ _) N). now right.
  - intros [pre [suf [Hs Hsep]]]. subst path.
    assert (N : Utils.find_last_of [Utils.slash; Utils.backslash]
                  (Utils.dot :: suf) = None).
    { apply find_last_of_None. intros c [<-|Hc].
      - reflexivity.
      - apply member_separator_false. now apply Hsep. }
    rewrite !find_last_of_app, N.
    assert (Dd : exists q, Utils.find_last_of [Utils.dot] (Utils.dot :: suf) = Some q).
    { cbn [Utils.find_last_of].
      destruct (Utils.find_last_of [Utils.dot] suf) as [r|];
        [exists (S r) | exists 0%nat]; reflexivity. }
    destruct Dd as [q ->].
    destruct (Utils.find_last_of [Utils.slash; Utils.backslash] pre) as [sl|] eqn:S;
      [|reflexivity].
    apply find_last_of_bound in S. apply Nat.ltb_lt. lia.
Qed.

(** [getExtension] returns the extension as written, in lower case. *)
Lemma getExtension_spec (name : list byte) :
  exists ext, extension_of name ext /\ Utils.getExtension name = lowercase ext.
Proof.
  unfold Utils.getExtension, extension_of.
  destruct (Utils.find_last_of [Utils.dot] name) as [d|] eqn:D.
  - destruct (find_last_of_Some _ _ _ D) as [pre [c [suf [Hs [Hl [Hm Hn]]]]]].
    apply member_dot in Hm. subst c.
    exists (Utils.dot :: suf). split.
    + right. exists pre, suf. repeat split; [exact Hs|].
      intros Hin.
      pose proof (proj1 (find_last_of_None _ _) Hn _ Hin) as F.
      now apply member_dot_false in F.
    + unfold Utils.substr. subst name d.
      rewrite skipn_app, skipn_all, Nat.sub_diag. reflexivity.
  - exists []. split; [|reflexivity].
    left. split; [|reflexivity].
    intros Hin.
    pose proof (proj1 (find_last_of_None _ _) D _ Hin) as F.
    now apply member_dot_false in F.
Qed.

(** The three cases of [generateOutputFilename]. *)
Lemma generateOutputFilename_cases (userProvidedPath originalFilename : list byte) :
  (userProvidedPath = [] ->
   Utils.generateOutputFilename userProvidedPath originalFilename
     = str "extracted_" ++ originalFilename)
  /\
  (userProvidedPath <> [] -> ~ has_file_extension userProvidedPath ->
   exists ext,
     extension_of originalFilename ext /\
     Utils.generateOutputFilename userProvidedPath originalFilename
       = userProvidedPath ++ lowercase ext)
  /\
  (has_file_extension userProvidedPath ->
   Utils.generateOutputFilename userProvidedPath originalFilename
     = userProvidedPath).
Proof.
  split; [|split].
  - now intros ->.
  - intros Hne Hno.
    destruct userProvidedPath as [|c p]; [congruence|].
    cbn [Utils.generateOutputFilename].
    destruct (Utils.hasExtension (c :: p)) eqn:E.
    + exfalso. apply Hno. now apply hasExtension_iff.
    + destruct (getExtension_spec originalFilename) as [ext [He Hg]].
      exists ext. split; [exact He|]. now rewrite Hg.
  - intros Hext.
    pose proof (proj2 (hasExtension_iff _) Hext) as E.
    destruct userProvidedPath as [|c p].
    + destruct Hext as [pre [suf [Hs _]]]. now destruct pre.
    + cbn [Utils.generateOutputFilename]. now rewrite E.
Qed.

Lemma hideFile_output_path junk fs hidden host out fs' p :
  hideFile junk fs hidden host out = Ok (fs', p) ->
  p = Utils.generateOutputFilename out (Utils.extractFilename host).
Proof.
  unfold hideFile.
  destruct (FileValidator.validateFileAccess fs hidden _); try discriminate.
  destruct (FileValidator.validateFileAccess fs host _); try discriminate.
  cbn [bind].
  destruct (FileValidator.validateAndCalculateMaxSize _ _); try discriminate.
  destruct (FileIOManager.readFile fs host); try discriminate.
  destruct (FileIOManager.readFile fs hidden); try discriminate.
  cbn [bind].
  destruct (FileIOManager.writeFile _ _ _); try discriminate.
  cbn [bind]. intros H. now injection H.
Qed.

Lemma extractFile_output_path fs stego out fs' p :
  extractFile fs stego out = Ok (fs', p) ->
  exists data header hiddenData originalFilename,
    contents fs stego = Some data /\
    snd (extractData data) = Ok (header, hiddenData) /\
    c_string (filename header) = Ok originalFilename /\
    p = Utils.generateOutputFilename out originalFilename.
Proof.
  unfold extractFile.
  destruct (FileValidator.validateFileAccess fs stego _); try discriminate.
  cbn [bind]. unfold FileIOManager.readFile.
  destruct (contents fs stego) as [data|]; try discriminate.
  cbn [bind].
  destruct (snd (extractData data)) as [[header hiddenData]| |] eqn:E;
    try discriminate.
  cbn [bind].
  destruct (c_string (filename header)) as [name| |] eqn:C; try discriminate.
  cbn [bind].
  destruct (FileIOManager.writeFile _ _ _); try discriminate.
  cbn [bind]. intros H. injection H as _ <-.
  exists data, header, hiddenData, name. repeat split; assumption.
Qed.

(** C9, as the code has it.  Embedding and extraction finalise the
    output path by the same rule, applied to the host's file name and to
    the recovered file name: an empty path becomes "extracted_" followed
    by that name; a non-empty path without extension gets the name's
    extension appended in lower case; a path with an extension is used
    as it is. *)
Theorem output_path_finalization
        (junk : nat -> byte) (fs : FileSystem)
        (hidden host out p : list byte)
        (fs2 : FileSystem) (stego out2 p2 : list byte)
        (Hembed : written_path (hideFile junk fs hidden host out) = Ok p)
        (Hextract : written_path (extractFile fs2 stego out2) = Ok p2) :
  (let original := Utils.extractFilename host in
   (out = [] -> p = str "extracted_" ++ original) /\
   (out <> [] -> ~ has_file_extension out ->
    exists ext, extension_of original ext /\ p = out ++ lowercase ext) /\
   (has_file_extension out -> p = out))
  /\
  (exists data header hiddenData original,
      contents fs2 stego = Some data /\
      snd (extractData data) = Ok (header, hiddenData) /\
      c_string (filename header) = Ok original /\
      (out2 = [] -> p2 = str "extracted_" ++ original) /\
      (out2 <> [] -> ~ has_file_extension out2 ->
       exists ext, extension_of original ext /\ p2 = out2 ++ lowercase ext) /\
      (has_file_extension out2 -> p2 = out2)).
Proof.
  split.
  - unfold written_path in Hembed.
    destruct (hideFile junk fs hidden host out) as [[fs' q]| |] eqn:E;
      try discriminate.
    cbn [bind snd] in Hembed. apply Ok_inj in Hembed. subst q.
    apply hideFile_output_path in E. rewrite E.
    apply generateOutputFilename_cases.
  - unfold written_path in Hextract.
    destruct (extractFile fs2 stego out2) as [[fs' q]| |] eqn:E;
      try discriminate.
    cbn [bind snd] in Hextract. apply Ok_inj in Hextract. subst q.
    apply extractFile_output_path in E.
    destruct E as [data [header [hiddenData [original [E1 [E2 [E3 E4]]]]]]].
    exists data, header, hiddenData, original.
    rewrite E4.
    repeat split; try assumption; apply generateOutputFilename_cases.
Qed.

Lemma output_path_finalization_witness :
  exists ext,
    extension_of (Utils.extractFilename (str "pics/Host.PNG")) ext /\
    str "out.png" = str "out" ++ lowercase ext.
Proof.
  refine (proj1 (proj2 (proj1
    (output_path_finalization zero_junk sample_fs
       (str "notes/msg.txt") (str "pics/Host.PNG") (str "out") (str "out.png")
       sample_fs (str "s.bin") (str "res") (str "res.txt") _ _))) _ _).
  - vm_compute. reflexivity.
  - vm_compute. reflexivity.
  - vm_compute. discriminate.
  - intros [pre [suf [Hs _]]].
    destruct pre as [|a [|b [|c [|d pre]]]]; discriminate Hs.
Defined.

(** C9 as the specification words it fails for embedding: an empty
    output path has no extension, yet the result is not the host's
    extension appended to it; and the extension that is appended to a
    non-empty path is the lower-cased one. *)
Lemma embed_output_path_not_host_extension_appended :
  ~ has_file_extension [] /\
  extension_of (Utils.extractFilename (str "pics/Host.PNG")) (str ".PNG") /\
  written_path (hideFile zero_junk sample_fs (str "notes/msg.txt")
                         (str "pics/Host.PNG") [])
    = Ok (str "extracted_Host.PNG") /\
  str "extracted_Host.PNG" <> [] ++ str ".PNG" /\
  written_path (hideFile zero_junk sample_fs (str "notes/msg.txt")
                         (str "pics/Host.PNG") (str "out"))
    = Ok (str "out.png") /\
  str "out.png" <> str "out" ++ str ".PNG".
Proof.
  split; [|split; [|split; [|split; [|split]]]].
  - intros [pre [suf [Hs _]]]. destruct pre; discriminate Hs.
  - right. exists (str "Host"), (str "PNG").
    split; [reflexivity|]. split; [|reflexivity].
    intros Hin. vm_compute in Hin.
    repeat (destruct Hin as [Hin|Hin]; [discriminate Hin|]). exact Hin.
  - vm_compute. reflexivity.
  - vm_compute. discriminate.
  - vm_compute. reflexivity.
  - vm_compute. discriminate.
Qed.

(* ================================================================== *)
(** * The composite file *)
(* ================================================================== *)

Lemma hideFile_output junk fs hidden host out fs' p :
  hideFile junk fs hidden host out = Ok (fs', p) ->
  exists hostData hiddenData,
    contents fs host = Some hostData /\
    contents fs hidden = Some hiddenData /\
    contents fs' p =
      Some (hostData
            ++ serializeHeader junk
                 (createHeader hidden (Z.of_nat (length hiddenData)))
            ++ hiddenData).
Proof.
  unfold hideFile.
  destruct (FileValidator.validateFileAccess fs hidden _); try discriminate.
  destruct (FileValidator.validateFileAccess fs host _); try discriminate.
  cbn [bind].
  destruct (FileValidator.validateAndCalculateMaxSize _ _); try discriminate.
  unfold FileIOManager.readFile, Utils.getFileSize.
  destruct (contents fs host) as [hostData|]; try discriminate.
  destruct (contents fs hidden) as [hiddenData|]; try discriminate.
  cbn [bind]. unfold FileIOManager.writeFile.
  remember (hostData ++ _) as output eqn:Eo.
  remember (Utils.generateOutputFilename _ _) as final eqn:Ef.
  destruct (creatable fs final); try discriminate.
  cbn [bind]. intros H. injection H as <- <-.
  exists hostData, hiddenData. repeat split.
  cbn [contents]. unfold path_eqb.
  destruct (list_eq_dec byte_eq_dec final final) as [_|N];
    [now rewrite Eo|].
  now contradiction N.
Qed.

(** C2, as the code has it.  The serialised header is the object image
    of [StegoHeader], 276 bytes: the 272 bytes of its members and 4
    bytes of alignment padding; the file a successful embed writes is
    [hostSize + 276 + payloadSize] bytes long. *)
Theorem embed_output_length
        (junk : nat -> byte) (fs : FileSystem)
        (hidden host out : list byte) (len : Z)
        (Hrun : written_length (hideFile junk fs hidden host out) = Ok len) :
  len = Utils.getFileSize fs host + 276 + Utils.getFileSize fs hidden
  /\ HEADER_SIZE = 276
  /\ Layout.packed_size Layout.StegoHeader_fields = 272
  /\ (forall h, header_wf h ->
                Z.of_nat (length (serializeHeader junk h)) = 276).
Proof.
  split; [|repeat split].
  - unfold written_length, written_data in Hrun.
    destruct (hideFile junk fs hidden host out) as [[fs' p]| |] eqn:E;
      try discriminate.
    cbn [bind fst snd] in Hrun.
    destruct (hideFile_output _ _ _ _ _ _ _ E)
      as [hostData [hiddenData [Hh [Hp Hc]]]].
    rewrite Hc in Hrun. cbn [bind] in Hrun. apply Ok_inj in Hrun. subst len.
    unfold Utils.getFileSize. rewrite Hh, Hp.
    rewrite !length_app, !Nat2Z.inj_add.
    rewrite serializeHeader_length by apply createHeader_wf.
    change HEADER_SIZE with 276. lia.
  - intros h Hwf. now rewrite serializeHeader_length by apply Hwf.
Qed.

Lemma embed_output_length_witness :
  10521 = Utils.getFileSize sample_fs (str "pics/Host.PNG") + 276
          + Utils.getFileSize sample_fs (str "notes/msg.txt").
Proof.
  refine (proj1 (embed_output_length zero_junk sample_fs
                   (str "notes/msg.txt") (str "pics/Host.PNG") (str "out")
                   10521 _)).
  vm_compute. reflexivity.
Defined.

(** C2 as the specification words it fails: the header object is not
    272 bytes, and the scenario of the specification (a 5-byte payload
    in a 20000-byte host) gives 20281 bytes, not 20277. *)
Lemma embed_5_in_20000_gives_20281_bytes :
  HEADER_SIZE <> 272 /\
  Utils.getFileSize sample_fs (str "big/host.bin") = 20000 /\
  Utils.getFileSize sample_fs (str "notes/msg.txt") = 5 /\
  written_length (hideFile zero_junk sample_fs (str "notes/msg.txt")
                           (str "big/host.bin") (str "out.bin"))
    = Ok 20281 /\
  20281 <> 20277.
Proof.
  repeat split; try (vm_compute; reflexivity); vm_compute; discriminate.
Qed.

(* ================================================================== *)
(** * Round trip *)
(* ================================================================== *)

Lemma createHeader_hiddenFileSize (p : list byte) (size : Z) :
  hiddenFileSize (createHeader p size) = u32 size.
Proof.
  now rewrite createHeader_fields.
Qed.

Lemma createHeader_filenameLength (p : list byte) (size : Z) :
  filenameLength (createHeader p size) = name_length p.
Proof.
  now rewrite createHeader_fields.
Qed.

Lemma createHeader_filename (p : list byte) (size : Z) :
  filename (createHeader p size) =
  strncpy_image (Utils.extractFilename p) (Z.to_nat (name_length p))
  ++ repeat x00 (256 - Z.to_nat (name_length p)).
Proof.
  now rewrite createHeader_fields.
Qed.

Lemma c_string_terminated (a rest : list byte) :
  ~ In x00 a -> c_string (a ++ x00 :: rest) = Ok a.
Proof.
  induction a as [|c a IH]; intros Hn; cbn [app c_string].
  - reflexivity.
  - destruct (byte_eqb c x00) eqn:E.
    + apply byte_eqb_eq in E. subst c. exfalso. apply Hn. now left.
    + rewrite IH by (intros Hin; apply Hn; now right). reflexivity.
Qed.

(** The name a header built from a NUL-free path records: the final path
    component, cut to 255 bytes. *)
Lemma createHeader_name (p : list byte) (size : Z) :
  ~ In x00 (Utils.extractFilename p) ->
  let h := createHeader p size in
  c_string (filename h) = Ok (firstn 255 (Utils.extractFilename p)) /\
  firstn (Z.to_nat (filenameLength h)) (filename h)
    = firstn 255 (Utils.extractFilename p).
Proof.
  intros Hn h. subst h.
  rewrite createHeader_filename, createHeader_filenameLength.
  pose proof (name_length_range p) as Hk.
  set (name := Utils.extractFilename p) in *.
  assert (Hcut : firstn (Z.to_nat (name_length p)) name = firstn 255 name).
  { unfold name_length. fold name. unfold Config.MAX_FILENAME_LENGTH.
    destruct (Z.le_gt_cases (Z.of_nat (length name)) 255) as [L|G].
    - rewrite Z.min_l by lia. rewrite Nat2Z.id.
      rewrite !firstn_all2; try reflexivity; lia.
    - rewrite Z.min_r by lia. reflexivity. }
  assert (Hnn : ~ In x00 (firstn 255 name)).
  { intros Hin. apply Hn.
    rewrite <- (firstn_skipn 255 name). apply in_or_app. now left. }
  rewrite strncpy_image_no_nul.
  - rewrite Hcut. split.
    + replace (256 - Z.to_nat (name_length p))%nat
        with (S (255 - Z.to_nat (name_length p))) by lia.
      cbn [repeat]. now apply c_string_terminated.
    + rewrite firstn_app, length_firstn.
      replace (Z.to_nat (name_length p) - Nat.min 255 (length name))%nat
        with 0%nat.
      * rewrite firstn_O, app_nil_r. rewrite <- Hcut.
        rewrite firstn_firstn. now rewrite Nat.min_id.
      * unfold name_length. fold name. unfold Config.MAX_FILENAME_LENGTH. lia.
  - unfold name_length. fold name. lia.
  - now rewrite Hcut.
Qed.

Lemma window_app_skip (a rest : list byte) (r : nat) :
  window (a ++ rest) (length a + r) = window rest r.
Proof.
  unfold window. rewrite slice_app_skip by lia.
  now replace (length a + r - length a)%nat with r by lia.
Qed.

(** The extraction of [host ++ header ++ payload] when no window after
    the start of the header validates. *)
Lemma extractData_embed (junk : nat -> byte) (hidden hostData payload : list byte) :
  (1 <= length hostData)%nat ->
  Z.of_nat (length payload) < 2 ^ 32 ->
  let h := createHeader hidden (Z.of_nat (length payload)) in
  (forall r, (1 <= r <= length payload)%nat ->
             valid_at (serializeHeader junk h ++ payload) r = false) ->
  snd (extractData (hostData ++ serializeHeader junk h ++ payload))
    = Ok (h, payload).
Proof.
  intros Hhost H32 h Hlast.
  assert (HH : HEADER_SIZE = 276) by reflexivity.
  pose proof (createHeader_wf hidden (Z.of_nat (length payload))) as Hwf.
  fold h in Hwf.
  pose proof (serializeHeader_length junk h (wf_filename _ Hwf)) as Hser.
  set (ser := serializeHeader junk h) in *.
  set (data := hostData ++ ser ++ payload).
  assert (Hlen : Z.of_nat (length data)
                 = Z.of_nat (length hostData) + 276 + Z.of_nat (length payload)).
  { unfold data. rewrite !length_app. lia. }
  assert (Hstart : scan_start data = (length hostData + length payload)%nat).
  { unfold scan_start. lia. }
  assert (Hwin : window data (length hostData) = h).
  { unfold window, data.
    replace (Z.to_nat HEADER_SIZE) with (length ser) by lia.
    rewrite slice_app_middle.
    rewrite <- (app_nil_r ser). apply header_of_bytes_serialize. exact Hwf. }
  assert (Hscan : snd (scan_loop data (scan_start data))
                  = Ok (Some (length hostData))).
  { rewrite (scan_loop_finds data (scan_start data) (length hostData)).
    - reflexivity.
    - lia.
    - lia.
    - unfold valid_at. rewrite Hwin. apply createHeader_validate.
    - intros j Hj. unfold valid_at.
      replace j with (length hostData + (j - length hostData))%nat by lia.
      unfold data. rewrite window_app_skip.
      apply Hlast. lia. }
  rewrite (extractData_found data (length hostData)) by (exact Hscan || lia).
  rewrite Hwin.
  assert (Hsz : hiddenFileSize h = Z.of_nat (length payload)).
  { unfold h. rewrite createHeader_hiddenFileSize.
    unfold u32. apply Z.mod_small. lia. }
  rewrite Hsz.
  replace (_ >? _) with false
    by (symmetry; rewrite Z.gtb_ltb; apply Z.ltb_ge; lia).
  do 2 f_equal.
  unfold data. rewrite slice_app_skip by lia.
  rewrite slice_app_skip by lia.
  replace (length hostData + Z.to_nat HEADER_SIZE - length hostData
           - length ser)%nat with 0%nat by lia.
  rewrite Nat2Z.id. unfold slice. cbn [skipn]. apply firstn_all.
Qed.

Lemma generateOutputFilename_nonempty (out original : list byte) :
  Utils.generateOutputFilename out original <> [].
Proof.
  destruct out as [|c out]; cbn [Utils.generateOutputFilename].
  - discriminate.
  - destruct (Utils.hasExtension (c :: out)); discriminate.
Qed.

Lemma validateFileAccess_ok (fs : FileSystem) (p d : list byte) (t : string) :
  p <> [] -> contents fs p = Some d ->
  FileValidator.validateFileAccess fs p t = Ok tt.
Proof.
  intros Hne Hc. unfold FileValidator.validateFileAccess, Utils.fileExists.
  destruct p; [congruence|]. now rewrite Hc.
Qed.

Lemma path_eqb_refl (p : list byte) : path_eqb p p = true.
Proof.
  unfold path_eqb. destruct (list_eq_dec byte_eq_dec p p); congruence.
Qed.

Lemma validate_min_host (hiddenSize hostSize c : Z) :
  FileValidator.validateAndCalculateMaxSize hiddenSize hostSize = Ok c ->
  Config.MIN_HOST_SIZE <= hostSize.
Proof.
  unfold FileValidator.validateAndCalculateMaxSize.
  destruct (hostSize <? Config.MIN_HOST_SIZE) eqn:E; [discriminate|].
  intros _. now apply Z.ltb_ge.
Qed.

(** C1, as the code has it.  For readable files named by NUL-free,
    non-empty paths, a host and payload that pass the capacity check, a
    payload shorter than 2^32 bytes, and a composite in which no window
    behind the start of the appended header passes [validate]: embedding
    succeeds, and extracting from the file it wrote yields exactly the
    payload, with the recorded name equal to the payload path's final
    component cut to 255 bytes. *)
Theorem round_trip_when_header_is_last_valid_window
        (junk : nat -> byte) (fs : FileSystem)
        (hidden host out payload hostData : list byte) (capacity : Z)
        (Hhidden : contents fs hidden = Some payload)
        (Hhost : contents fs host = Some hostData)
        (Hpaths : hidden <> [] /\ host <> [])
        (Hsize : FileValidator.validateAndCalculateMaxSize
                   (Z.of_nat (length payload)) (Z.of_nat (length hostData))
                 = Ok capacity)
        (Hcreate : creatable fs (Utils.generateOutputFilename out
                                   (Utils.extractFilename host)) = true)
        (Hnul : ~ In x00 (Utils.extractFilename hidden))
        (H32 : Z.of_nat (length payload) < 2 ^ 32)
        (Hlast : forall r, (1 <= r <= length payload)%nat ->
                   valid_at (serializeHeader junk
                               (createHeader hidden (Z.of_nat (length payload)))
                             ++ payload) r = false) :
  let name := firstn 255 (Utils.extractFilename hidden) in
  exists fs1 stego data header,
    hideFile junk fs hidden host out = Ok (fs1, stego) /\
    contents fs1 stego = Some data /\
    snd (extractData data) = Ok (header, payload) /\
    c_string (filename header) = Ok name /\
    firstn (Z.to_nat (filenameLength header)) (filename header) = name /\
    (forall out2,
        creatable fs1 (Utils.generateOutputFilename out2 name) = true ->
        written_path (extractFile fs1 stego out2)
          = Ok (Utils.generateOutputFilename out2 name) /\
        written_data (extractFile fs1 stego out2) = Ok payload).
Proof.
  intros name.
  destruct Hpaths as [Hp1 Hp2].
  set (h := createHeader hidden (Z.of_nat (length payload))) in *.
  set (data := hostData ++ serializeHeader junk h ++ payload).
  set (stego := Utils.generateOutputFilename out (Utils.extractFilename host)) in *.
  set (fs1 := mkFS (fun p => if path_eqb p stego then Some data
                             else contents fs p) (creatable fs)).
  assert (Hhide : hideFile junk fs hidden host out = Ok (fs1, stego)).
  { unfold hideFile.
    rewrite (validateFileAccess_ok fs hidden payload) by assumption.
    rewrite (validateFileAccess_ok fs host hostData) by assumption.
    cbn [bind]. unfold Utils.getFileSize, FileIOManager.readFile.
    rewrite Hhidden, Hhost, Hsize. cbn [bind].
    unfold FileIOManager.writeFile. fold stego. rewrite Hcreate.
    reflexivity. }
  assert (Hdata : contents fs1 stego = Some data).
  { cbn [fs1 contents]. now rewrite path_eqb_refl. }
  assert (Hext : snd (extractData data) = Ok (h, payload)).
  { apply extractData_embed; try assumption.
    apply validate_min_host in Hsize. unfold Config.MIN_HOST_SIZE in Hsize. lia. }
  destruct (createHeader_name hidden (Z.of_nat (length payload)) Hnul)
    as [Hc Hf]. fold h in Hc, Hf. fold name in Hc, Hf.
  exists fs1, stego, data, h.
  repeat split; try assumption.
  - unfold written_path, extractFile.
    rewrite (validateFileAccess_ok fs1 stego data)
      by (assumption || apply generateOutputFilename_nonempty).
    cbn [bind]. unfold FileIOManager.readFile. rewrite Hdata. cbn [bind].
    rewrite Hext. cbn [bind]. rewrite Hc. cbn [bind].
    unfold FileIOManager.writeFile. rewrite H. reflexivity.
  - unfold written_data, extractFile.
    rewrite (validateFileAccess_ok fs1 stego data)
      by (assumption || apply generateOutputFilename_nonempty).
    cbn [bind]. unfold FileIOManager.readFile. rewrite Hdata. cbn [bind].
    rewrite Hext. cbn [bind]. rewrite Hc. cbn [bind].
    unfold FileIOManager.writeFile. rewrite H. cbn [bind fst snd contents].
    now rewrite path_eqb_refl.
Qed.

Lemma round_trip_when_header_is_last_valid_window_witness :
  exists fs1 stego data header,
    hideFile zero_junk sample_fs (str "notes/msg.txt") (str "pics/Host.PNG")
             (str "out") = Ok (fs1, stego) /\
    contents fs1 stego = Some data /\
    snd (extractData data) = Ok (header, str "hello") /\
    c_string (filename header) = Ok (str "msg.txt") /\
    firstn (Z.to_nat (filenameLength header)) (filename header)
      = str "msg.txt" /\
    (forall out2,
        creatable fs1 (Utils.generateOutputFilename out2 (str "msg.txt")) = true ->
        written_path (extractFile fs1 stego out2)
          = Ok (Utils.generateOutputFilename out2 (str "msg.txt")) /\
        written_data (extractFile fs1 stego out2) = Ok (str "hello")).
Proof.
  refine (round_trip_when_header_is_last_valid_window
            zero_junk sample_fs (str "notes/msg.txt") (str "pics/Host.PNG")
            (str "out") (str "hello") host_10k 8428 _ _ _ _ _ _ _ _).
  - reflexivity.
  - reflexivity.
  - split; discriminate.
  - vm_compute. reflexivity.
  - reflexivity.
  - intros Hin. vm_compute in Hin.
    repeat (destruct Hin as [Hin|Hin]; [discriminate Hin|]). exact Hin.
  - vm_compute. reflexivity.
  - intros r Hr.
    assert (C : r = 1%nat \/ r = 2%nat \/ r = 3%nat \/ r = 4%nat \/ r = 5%nat).
    { change (length (str "hello")) with 5%nat in Hr. lia. }
    destruct C as [->|[->|[->|[->| ->]]]]; vm_compute; reflexivity.
Defined.

(** C1 as the specification words it fails: a payload that is itself the
    image of a valid header fits the capacity of a 10240-byte host, and
    extraction stops at the payload's own bytes: it returns no bytes at
    all, and the name stored in the payload. *)
Lemma round_trip_fails_for_payload_holding_a_header :
  10240 <= Utils.getFileSize decoy_fs (str "pics/Host.PNG") /\
  FileValidator.validateAndCalculateMaxSize
    (Utils.getFileSize decoy_fs (str "decoy.bin"))
    (Utils.getFileSize decoy_fs (str "pics/Host.PNG")) = Ok 8428 /\
  Utils.getFileSize decoy_fs (str "decoy.bin") = 276 /\
  match hideFile zero_junk decoy_fs (str "decoy.bin") (str "pics/Host.PNG")
                 (str "out") with
  | Ok (fs1, stego) =>
      written_data (extractFile fs1 stego (str "res")) = Ok [] /\
      match contents fs1 stego with
      | Some data =>
          option_map (fun hp => c_string (filename (fst hp)))
            (match snd (extractData data) with
             | Ok hp => Some hp
             | _ => None
             end) = Some (Ok (str "decoy"))
      | None => False
      end
  | _ => False
  end.
Proof.
  split; [|split; [|split]].
  - vm_compute. discriminate.
  - vm_compute. reflexivity.
  - vm_compute. reflexivity.
  - vm_compute. split; reflexivity.
Qed.

(* ================================================================== *)
(** * The capacity computation in binary64 *)
(* ================================================================== *)

Lemma shr_1_nonneg (m : Z) (r s : bool) :
  0 <= m ->
  shr_1 (Build_shr_record m r s) = Build_shr_record (m / 2) (Z.odd m) (r || s).
Proof.
  intros Hm. destruct m as [|p|p]; [reflexivity| |lia].
  destruct p as [p|p|]; cbn [shr_1].
  - f_equal. rewrite Pos2Z.inj_xI.
    apply Z.div_unique with 1; lia.
  - f_equal. rewrite Pos2Z.inj_xO.
    apply Z.div_unique with 0; lia.
  - reflexivity.
Qed.

Lemma iter_pos_nat {A : Type} (f : A -> A) (p : positive) (x : A) :
  iter_pos f p x = Nat.iter (Pos.to_nat p) f x.
Proof.
  revert x. induction p as [p IH|p IH|]; intros x; cbn [iter_pos].
  - rewrite !IH, Pos2Nat.inj_xI.
    replace (S (2 * Pos.to_nat p)) with (Pos.to_nat p + (Pos.to_nat p + 1))%nat by lia.
    rewrite !Nat.iter_add. reflexivity.
  - rewrite !IH, Pos2Nat.inj_xO.
    replace (2 * Pos.to_nat p)%nat with (Pos.to_nat p + Pos.to_nat p)%nat by lia.
    rewrite Nat.iter_add. reflexivity.
  - reflexivity.
Qed.

(** The record after [n] right shifts of a non-negative mantissa. *)
Lemma iter_shr_1 (m : Z) (n : nat) :
  0 <= m ->
  let mrs := Nat.iter n shr_1 (Build_shr_record m false false) in
  shr_m mrs = m / 2 ^ Z.of_nat n /\
  (shr_r mrs || shr_s mrs = negb (m mod 2 ^ Z.of_nat n =? 0)) /\
  (forall k, n = S k ->
     shr_r mrs = Z.odd (m / 2 ^ Z.of_nat k) /\
     shr_s mrs = negb (m mod 2 ^ Z.of_nat k =? 0)).
Proof.
  intros Hm. induction n as [|n IH]; cbn zeta in *.
  - cbn [Nat.iter nat_rect shr_m shr_r shr_s]. rewrite Z.div_1_r, Z.mod_1_r.
    split; [reflexivity|]. split; [reflexivity|]. intros k Hk. discriminate.
  - rewrite Nat.iter_succ.
    destruct (Nat.iter n shr_1 {| shr_m := m; shr_r := false; shr_s := false |})
      as [q r s] eqn:E.
    cbn [shr_m shr_r shr_s] in IH. destruct IH as [Hq [Hrs _]].
    assert (Hq0 : 0 <= q) by (subst q; apply Z.div_pos; lia).
    rewrite shr_1_nonneg by exact Hq0. cbn [shr_m shr_r shr_s].
    assert (P : 0 < 2 ^ Z.of_nat n) by (apply Z.pow_pos_nonneg; lia).
    assert (E2 : 2 ^ Z.of_nat (S n) = 2 ^ Z.of_nat n * 2).
    { rewrite Nat2Z.inj_succ, Z.pow_succ_r by lia. lia. }
    split; [|split].
    + rewrite E2, <- Z.div_div by lia. now rewrite Hq.
    + rewrite Hrs, Hq.
      rewrite E2, Z.rem_mul_r by lia.
      rewrite Zodd_mod.
      destruct (Z.eqb_spec (m mod 2 ^ Z.of_nat n) 0) as [Z0|NZ];
      destruct (Z.eqb_spec ((m / 2 ^ Z.of_nat n) mod 2) 1) as [O1|NO1]; cbn.
      * rewrite Z0, O1. symmetry. apply negb_true_iff, Z.eqb_neq. lia.
      * rewrite Z0. assert ((m / 2 ^ Z.of_nat n) mod 2 = 0)
          by (pose proof (Z.mod_pos_bound (m / 2 ^ Z.of_nat n) 2); lia).
        symmetry. apply negb_false_iff, Z.eqb_eq. lia.
      * symmetry. apply negb_true_iff, Z.eqb_neq.
        pose proof (Z.mod_pos_bound m (2 ^ Z.of_nat n)). lia.
      * symmetry. apply negb_true_iff, Z.eqb_neq.
        pose proof (Z.mod_pos_bound m (2 ^ Z.of_nat n)).
        pose proof (Z.mod_pos_bound (m / 2 ^ Z.of_nat n) 2). nia.
    + intros k Hk. injection Hk as <-. split; [now rewrite Hq | exact Hrs].
Qed.

Lemma shr_round (m : Z) (p : positive) :
  0 <= m ->
  let mrs := iter_pos shr_1 p (Build_shr_record m false false) in
  shr_m mrs = m / 2 ^ Z.pos p /\
  round_nearest_even (shr_m mrs) (loc_of_shr_record mrs)
    = round_shift m (Z.pos p).
Proof.
  intros Hm mrs. subst mrs. rewrite iter_pos_nat.
  destruct (Pos2Nat.is_succ p) as [k Hk].
  destruct (iter_shr_1 m (Pos.to_nat p) Hm) as [Hq [_ Hrs]].
  destruct (Hrs k Hk) as [Hr Hs]. clear Hrs.
  destruct (Nat.iter (Pos.to_nat p) shr_1 _) as [q r s].
  cbn [shr_m shr_r shr_s] in *.
  rewrite positive_nat_Z in Hq.
  assert (Ep : Z.pos p = Z.of_nat k + 1) by lia.
  split; [exact Hq|].
  unfold round_shift. rewrite <- Hq.
  assert (P : 0 < 2 ^ Z.of_nat k) by (apply Z.pow_pos_nonneg; lia).
  assert (E2 : 2 ^ Z.pos p = 2 ^ Z.of_nat k * 2).
  { rewrite Ep, Z.pow_add_r by lia. lia. }
  rewrite E2, Z.rem_mul_r by lia.
  pose proof (Z.mod_pos_bound m (2 ^ Z.of_nat k) P) as B1.
  rewrite Zmod_odd, <- Hr. clear Hr.
  destruct r, s; cbn [loc_of_shr_record round_nearest_even];
    symmetry in Hs;
    try apply negb_true_iff in Hs; try apply negb_false_iff in Hs;
    try apply Z.eqb_eq in Hs; try apply Z.eqb_neq in Hs.
  - replace (_ <? _) with false by (symmetry; apply Z.ltb_ge; nia).
    replace (_ =? _) with false by (symmetry; apply Z.eqb_neq; nia).
    reflexivity.
  - replace (_ <? _) with false by (symmetry; apply Z.ltb_ge; nia).
    replace (_ =? _) with true by (symmetry; apply Z.eqb_eq; nia).
    reflexivity.
  - replace (_ <? _) with true by (symmetry; apply Z.ltb_lt; nia).
    reflexivity.
  - replace (_ <? _) with true by (symmetry; apply Z.ltb_lt; nia).
    reflexivity.
Qed.

Lemma digits2_pos_bounds (p : positive) :
  2 ^ (Z.pos (digits2_pos p) - 1) <= Z.pos p < 2 ^ Z.pos (digits2_pos p).
Proof.
  assert (step : forall d : positive,
             2 ^ Z.pos (Pos.succ d) = 2 * 2 ^ Z.pos d /\
             2 ^ (Z.pos (Pos.succ d) - 1) = 2 * 2 ^ (Z.pos d - 1)).
  { intros d. rewrite Pos2Z.inj_succ. split.
    - apply Z.pow_succ_r. lia.
    - replace (Z.succ (Z.pos d) - 1) with (Z.succ (Z.pos d - 1)) by lia.
      apply Z.pow_succ_r. lia. }
  induction p as [p IH|p IH|]; cbn [digits2_pos].
  - destruct (step (digits2_pos p)) as [-> ->]. lia.
  - destruct (step (digits2_pos p)) as [-> ->]. lia.
  - cbn. lia.
Qed.

Lemma Zdigits2_unique (m k : Z) :
  2 ^ (k - 1) <= m < 2 ^ k -> 1 <= k -> Zdigits2 m = k.
Proof.
  intros [Hlo Hhi] Hk.
  assert (0 < m) by (pose proof (Z.pow_pos_nonneg 2 (k - 1)); lia).
  destruct m as [|p|p]; try lia. cbn [Zdigits2].
  pose proof (digits2_pos_bounds p) as [Blo Bhi].
  set (d := Z.pos (digits2_pos p)) in *.
  assert (d - 1 < k).
  { apply (Z.pow_lt_mono_r_iff 2); lia. }
  assert (k - 1 < d).
  { apply (Z.pow_lt_mono_r_iff 2); lia. }
  lia.
Qed.

Lemma Zdigits2_bounds (m : Z) :
  0 < m -> 2 ^ (Zdigits2 m - 1) <= m < 2 ^ Zdigits2 m /\ 1 <= Zdigits2 m.
Proof.
  intros Hm. destruct m as [|p|p]; try lia. cbn [Zdigits2].
  split; [apply digits2_pos_bounds | lia].
Qed.

Lemma round_shift_cases (m s : Z) :
  round_shift m s = m / 2 ^ s \/ round_shift m s = m / 2 ^ s + 1.
Proof.
  unfold round_shift.
  destruct (_ <? _); [now left|].
  destruct (_ =? _); [|now right].
  destruct (Z.even _); [now left | now right].
Qed.

Lemma round_shift_up (m s : Z) :
  2 ^ s < 2 * (m mod 2 ^ s) -> round_shift m s = m / 2 ^ s + 1.
Proof.
  intros H. unfold round_shift.
  replace (_ <? _) with false by (symmetry; apply Z.ltb_ge; lia).
  replace (_ =? _) with false by (symmetry; apply Z.eqb_neq; lia).
  reflexivity.
Qed.

Lemma fexp_normal (x : Z) : -1074 <= x - 53 -> fexp 53 1024 x = x - 53.
Proof.
  unfold fexp, emin. lia.
Qed.

Lemma pow2_lt_inv (a b : Z) : 0 <= b -> 2 ^ a < 2 ^ b -> a < b.
Proof.
  intros Hb H. apply (Z.pow_lt_mono_r_iff 2); lia.
Qed.

(** A mantissa of exactly 53 bits is kept as it is. *)
Lemma binary_round_aux_exact (pm : positive) (e : Z) :
  Zdigits2 (Z.pos pm) = 53 -> -1074 <= e <= 971 ->
  binary_round_aux 53 1024 false (Z.pos pm) e loc_Exact
    = S754_finite false pm e.
Proof.
  intros HD He. unfold binary_round_aux, shr_fexp.
  rewrite HD, fexp_normal by lia.
  replace (53 + e - 53 - e) with 0 by lia.
  cbn [shr shr_record_of_loc shr_m loc_of_shr_record round_nearest_even].
  rewrite HD, fexp_normal by lia. replace (53 + e - 53 - e) with 0 by lia.
  cbn [shr shr_record_of_loc shr_m].
  replace (e <=? 1024 - 53) with true by (symmetry; apply Z.leb_le; lia).
  reflexivity.
Qed.

(** A mantissa of [53 + s] bits is shifted right by [s] and rounded to
    nearest, ties to even; a carry out of the 53 bits shifts once more. *)
Lemma binary_round_aux_shift (pm : positive) (e s : Z) :
  Zdigits2 (Z.pos pm) = 53 + s -> 0 < s ->
  -1074 <= e + s -> e + s <= 970 ->
  let q' := round_shift (Z.pos pm) s in
  2 ^ 52 <= q' <= 2 ^ 53 /\
  exists m' e',
    binary_round_aux 53 1024 false (Z.pos pm) e loc_Exact
      = S754_finite false m' e' /\
    ((q' < 2 ^ 53 /\ Z.pos m' = q' /\ e' = e + s) \/
     (q' = 2 ^ 53 /\ Z.pos m' = 2 ^ 52 /\ e' = e + s + 1)).
Proof.
  intros HD Hs Hlo Hhi q'.
  destruct (Zdigits2_bounds (Z.pos pm) ltac:(lia)) as [[Blo Bhi] _].
  rewrite HD in Blo, Bhi.
  replace (53 + s - 1) with (52 + s) in Blo by lia.
  rewrite Z.pow_add_r in Blo, Bhi by lia.
  assert (P : 0 < 2 ^ s) by (apply Z.pow_pos_nonneg; lia).
  assert (Hq : 2 ^ 52 <= Z.pos pm / 2 ^ s < 2 ^ 53).
  { split.
    - apply Z.div_le_lower_bound; lia.
    - apply Z.div_lt_upper_bound; lia. }
  assert (Hq' : 2 ^ 52 <= q' <= 2 ^ 53).
  { subst q'. destruct (round_shift_cases (Z.pos pm) s) as [-> | ->]; lia. }
  split; [exact Hq'|].
  unfold binary_round_aux, shr_fexp.
  rewrite HD, fexp_normal by lia.
  replace (53 + s + e - 53 - e) with s by lia.
  destruct s as [|ps|ps]; try lia.
  cbn [shr shr_record_of_loc].
  destruct (shr_round (Z.pos pm) ps ltac:(lia)) as [_ Hr].
  cbn zeta in Hr. rewrite Hr. fold q'.
  destruct (Z.eq_dec q' (2 ^ 53)) as [C|NC].
  - (* carry *)
    rewrite C.
    assert (D54 : Zdigits2 (2 ^ 53) = 54) by reflexivity.
    rewrite D54, fexp_normal by lia.
    replace (54 + (e + Z.pos ps) - 53 - (e + Z.pos ps)) with 1 by lia.
    cbn [shr shr_record_of_loc iter_pos].
    change (shr_1 {| shr_m := 2 ^ 53; shr_r := false; shr_s := false |})
      with {| shr_m := 2 ^ 52; shr_r := false; shr_s := false |}.
    cbn [shr_m].
    change (2 ^ 52) with (Z.pos (2 ^ 52)).
    replace (e + Z.pos ps + 1 <=? 1024 - 53) with true
      by (symmetry; apply Z.leb_le; lia).
    exists (2 ^ 52)%positive, (e + Z.pos ps + 1).
    split; [reflexivity|]. right. repeat split; assumption.
  - assert (D53 : Zdigits2 q' = 53).
    { apply Zdigits2_unique; lia. }
    rewrite D53, fexp_normal by lia.
    replace (53 + (e + Z.pos ps) - 53 - (e + Z.pos ps)) with 0 by lia.
    cbn [shr shr_record_of_loc shr_m].
    destruct q' as [|pq|pq] eqn:Eq; try lia.
    replace (e + Z.pos ps <=? 1024 - 53) with true
      by (symmetry; apply Z.leb_le; lia).
    exists pq, (e + Z.pos ps).
    split; [reflexivity|]. left. repeat split; lia.
Qed.

Lemma lit_0_85_value : Double.lit_0_85 = S754_finite false (Z.to_pos M085) (-53).
Proof. reflexivity. Qed.

Lemma pos_iter_xO (p k : positive) :
  Z.pos (Pos.iter xO p k) = Z.pos p * 2 ^ Z.pos k.
Proof.
  induction k as [|k IH] using Pos.peano_ind.
  - cbn [Pos.iter]. rewrite Pos2Z.inj_xO. change (2 ^ 1) with 2. lia.
  - rewrite Pos.iter_succ, Pos2Z.inj_xO, IH, Pos2Z.inj_succ, Z.pow_succ_r by lia.
    lia.
Qed.

(** Sizes below 2^53 convert exactly, with the mantissa normalised. *)
Lemma of_size_small (n : Z) :
  0 < n < 2 ^ 53 ->
  let d := Zdigits2 n in
  exists m1,
    Double.of_size n = S754_finite false m1 (d - 53) /\
    Z.pos m1 = n * 2 ^ (53 - d) /\
    2 ^ 52 <= Z.pos m1 < 2 ^ 53 /\ 1 <= d <= 53.
Proof.
  intros [Hn Hn53] d.
  destruct (Zdigits2_bounds n Hn) as [[Blo Bhi] Hd1]. fold d in Blo, Bhi, Hd1.
  assert (Hd : d <= 53).
  { assert (d - 1 < 53) by (apply pow2_lt_inv; lia). lia. }
  destruct n as [|p|p]; try lia.
  unfold Double.of_size, binary_normalize, binary_round.
  change (Z.pos (digits2_pos p)) with d.
  unfold Double.prec, Double.emax.
  rewrite Z.add_0_r, fexp_normal by lia.
  assert (Hm : 2 ^ 52 <= Z.pos p * 2 ^ (53 - d) < 2 ^ 53).
  { replace (2 ^ 52) with (2 ^ (d - 1) * 2 ^ (53 - d))
      by (rewrite <- Z.pow_add_r by lia; f_equal; lia).
    replace (2 ^ 53) with (2 ^ d * 2 ^ (53 - d))
      by (rewrite <- Z.pow_add_r by lia; f_equal; lia).
    assert (0 < 2 ^ (53 - d)) by (apply Z.pow_pos_nonneg; lia).
    nia. }
  unfold shl_align.
  destruct (d - 53 - 0) as [|k|k] eqn:Ek; try lia; cbv beta iota.
  - assert (d = 53) by lia.
    exists p. rewrite binary_round_aux_exact by (exact H || lia).
    replace (53 - d) with 0 in * by lia. rewrite Z.mul_1_r in *.
    repeat split; try lia. f_equal. lia.
  - assert (Hk : Z.pos k = 53 - d) by lia.
    exists (Pos.iter xO p k).
    rewrite binary_round_aux_exact.
    + rewrite pos_iter_xO, Hk. repeat split; lia.
    + apply Zdigits2_unique; [|lia]. rewrite pos_iter_xO, Hk. exact Hm.
    + lia.
Qed.

(** Sizes from 2^53 up to 2^64 are rounded to 53 bits. *)
Lemma of_size_large (n : Z) :
  2 ^ 53 <= n < 2 ^ 64 ->
  exists m1 e1,
    Double.of_size n = S754_finite false m1 e1 /\
    2 ^ 52 <= Z.pos m1 < 2 ^ 53 /\ 1 <= e1 <= 12 /\
    Z.pos m1 * 2 ^ e1 <= 2 ^ 64.
Proof.
  intros [Hlo Hhi].
  destruct (Zdigits2_bounds n ltac:(lia)) as [[Blo Bhi] Hd1].
  set (d := Zdigits2 n) in *.
  assert (Hd : 53 < d <= 64).
  { assert (53 < d) by (apply pow2_lt_inv; lia).
    assert (d - 1 < 64) by (apply pow2_lt_inv; lia). lia. }
  destruct n as [|p|p]; try lia.
  unfold Double.of_size, binary_normalize, binary_round.
  change (Z.pos (digits2_pos p)) with d.
  unfold Double.prec, Double.emax.
  rewrite Z.add_0_r, fexp_normal by lia.
  unfold shl_align.
  destruct (d - 53 - 0) as [|k|k] eqn:Ek; try lia; cbv beta iota.
  destruct (binary_round_aux_shift p 0 (d - 53)) as [Hq [m' [e' [E C]]]];
    try lia.
  exists m', e'. split; [exact E|].
  set (s := d - 53) in *.
  assert (P : 0 < 2 ^ s) by (apply Z.pow_pos_nonneg; lia).
  assert (Hdiv : Z.pos p / 2 ^ s < 2 ^ (64 - s)).
  { apply Z.div_lt_upper_bound; [lia|].
    rewrite <- Z.pow_add_r by lia. replace (s + (64 - s)) with 64 by lia. lia. }
  assert (Hround : round_shift (Z.pos p) s * 2 ^ s <= 2 ^ 64).
  { replace (2 ^ 64) with (2 ^ (64 - s) * 2 ^ s)
      by (rewrite <- Z.pow_add_r by lia; f_equal; lia).
    destruct (round_shift_cases (Z.pos p) s) as [-> | ->]; nia. }
  destruct C as [[C1 [C2 C3]] | [C1 [C2 C3]]].
  - rewrite C2, C3. replace (0 + s) with s by lia.
    repeat split; try lia.
  - rewrite C2, C3. rewrite C1 in Hround.
    replace (0 + s + 1) with (s + 1) by lia.
    repeat split; try lia.
    rewrite Z.pow_add_r by lia. change (2 ^ 1) with 2.
    change (2 ^ 53) with (2 ^ 52 * 2) in Hround. lia.
Qed.

(** The product of a normalised mantissa with the literal 0.85. *)
Lemma mul_0_85 (m1 : positive) (e1 : Z) :
  2 ^ 52 <= Z.pos m1 < 2 ^ 53 -> -60 <= e1 <= 12 ->
  let P := Z.pos m1 * M085 in
  let s := Zdigits2 P - 53 in
  let q' := round_shift P s in
  52 <= s <= 53 /\
  2 ^ (52 + s) <= P < 2 ^ (53 + s) /\
  2 ^ 52 <= q' <= 2 ^ 53 /\
  exists m2 e2,
    Double.mul (S754_finite false m1 e1) Double.lit_0_85
      = S754_finite false m2 e2 /\
    ((q' < 2 ^ 53 /\ Z.pos m2 = q' /\ e2 = e1 - 53 + s) \/
     (q' = 2 ^ 53 /\ Z.pos m2 = 2 ^ 52 /\ e2 = e1 - 53 + s + 1)).
Proof.
  intros Hm He P s q'.
  assert (HP : 2 ^ 104 <= P < 2 ^ 106).
  { subst P. unfold M085. lia. }
  destruct (Zdigits2_bounds P ltac:(lia)) as [[Blo Bhi] Hd1].
  assert (Hs : 52 <= s <= 53).
  { subst s.
    assert (104 < Zdigits2 P) by (apply pow2_lt_inv; lia).
    assert (Zdigits2 P - 1 < 106) by (apply pow2_lt_inv; lia). lia. }
  split; [exact Hs|]. split.
  { subst s. replace (52 + (Zdigits2 P - 53)) with (Zdigits2 P - 1) by lia.
    replace (53 + (Zdigits2 P - 53)) with (Zdigits2 P) by lia. lia. }
  change (Double.mul (S754_finite false m1 e1) Double.lit_0_85)
    with (binary_round_aux 53 1024 false
            (Z.pos (m1 * Z.to_pos M085)) (e1 + -53) loc_Exact).
  assert (EP : Z.pos (m1 * Z.to_pos M085) = P) by reflexivity.
  destruct (binary_round_aux_shift (m1 * Z.to_pos M085) (e1 + -53) s)
    as [Hq [m2 [e2 [E C]]]]; try lia.
  { rewrite EP. subst s. lia. }
  rewrite EP in Hq, C. fold q' in Hq, C.
  split; [exact Hq|].
  exists m2, e2. split; [exact E|].
  destruct C as [[C1 [C2 C3]] | [C1 [C2 C3]]]; [left | right];
    repeat split; try assumption; lia.
Qed.

(** The integer a rounded product converts to. *)
Lemma to_size_rounded (m2 : positive) (e2 q' a : Z) :
  (q' < 2 ^ 53 /\ Z.pos m2 = q' /\ e2 = a) \/
  (q' = 2 ^ 53 /\ Z.pos m2 = 2 ^ 52 /\ e2 = a + 1) ->
  let z := if 0 <=? a then q' * 2 ^ a else q' / 2 ^ (- a) in
  z < 2 ^ 64 ->
  Double.to_size (S754_finite false m2 e2) = Ok z.
Proof.
  intros C z Hz. unfold Double.to_size.
  assert (Ez : (if 0 <=? e2 then Z.pos m2 * 2 ^ e2
                else Z.pos m2 / 2 ^ (- e2)) = z).
  { subst z. destruct C as [[C1 [C2 C3]] | [C1 [C2 C3]]].
    - now rewrite C2, C3.
    - rewrite C1, C2, C3.
      destruct (Z.leb_spec 0 a) as [Ha|Ha].
      + replace (0 <=? a + 1) with true by (symmetry; apply Z.leb_le; lia).
        rewrite Z.pow_add_r by lia. change (2 ^ 53) with (2 ^ 52 * 2).
        change (2 ^ 1) with 2. lia.
      + destruct (Z.eq_dec a (-1)) as [->|Hne].
        * reflexivity.
        * replace (0 <=? a + 1) with false by (symmetry; apply Z.leb_gt; lia).
          replace (- a) with (1 + - (a + 1)) by lia.
          rewrite Z.pow_add_r by lia. change (2 ^ 1) with 2.
          rewrite <- Z.div_div by (try apply Z.pow_pos_nonneg; lia).
          reflexivity. }
  rewrite Ez.
  replace (z <? 2 ^ 64) with true by (symmetry; apply Z.ltb_lt; exact Hz).
  reflexivity.
Qed.

Lemma round_shift_le (m s : Z) :
  0 < s -> 0 <= m -> round_shift m s * 2 ^ s <= m + 2 ^ s.
Proof.
  intros Hs Hm.
  assert (P : 0 < 2 ^ s) by (apply Z.pow_pos_nonneg; lia).
  pose proof (Z.mul_div_le m (2 ^ s) P).
  destruct (round_shift_cases m s) as [-> | ->]; nia.
Qed.

(** The arithmetic behind the exact case: rounding the product to 53
    bits and cutting the fraction leaves the floor of 85 percent. *)
Lemma round_then_truncate (n d s : Z) :
  0 < n -> 2 ^ (d - 1) <= n < 2 ^ d -> 1 <= d <= 48 -> 52 <= s <= 53 ->
  let P := n * 2 ^ (53 - d) * M085 in
  2 ^ (52 + s) <= P < 2 ^ (53 + s) ->
  round_shift P s / 2 ^ (106 - d - s) = n * 85 / 100.
Proof.
  intros Hn [Hlo Hhi] Hd Hs P HP.
  set (X := 2 ^ (53 - d)) in *.
  set (S := 2 ^ s).
  set (T := 2 ^ (106 - d - s)).
  set (k := n * 85 / 100).
  assert (HX : 0 < X) by (apply Z.pow_pos_nonneg; lia).
  assert (HS : 0 < S) by (apply Z.pow_pos_nonneg; lia).
  assert (HT : 32 <= T).
  { change 32 with (2 ^ 5). apply Z.pow_le_mono_r; lia. }
  assert (HW : S * T = X * 2 ^ 53).
  { unfold S, T, X. rewrite <- !Z.pow_add_r by lia. f_equal. lia. }
  assert (Hm1 : 2 ^ 52 <= n * X < 2 ^ 53).
  { replace (2 ^ 52) with (2 ^ (d - 1) * X)
      by (unfold X; rewrite <- Z.pow_add_r by lia; f_equal; lia).
    replace (2 ^ 53) with (2 ^ d * X)
      by (unfold X; rewrite <- Z.pow_add_r by lia; f_equal; lia).
    nia. }
  assert (HX5 : 32 <= X).
  { change 32 with (2 ^ 5). apply Z.pow_le_mono_r; lia. }
  pose proof (Z.div_mod (n * 85) 100 ltac:(lia)) as Hdm. fold k in Hdm.
  pose proof (Z.mod_pos_bound (n * 85) 100 ltac:(lia)) as Hrho.
  set (rho := (n * 85) mod 100) in *.
  (* 100 * P = (100 k + rho) * W - 20 * m1 *)
  assert (H100 : 100 * P = (100 * k + rho) * (S * T) - 20 * (n * X)).
  { rewrite HW. unfold P, M085. nia. }
  assert (HPS : 2 ^ 52 * S <= P < 2 ^ 53 * S).
  { unfold S. rewrite <- !Z.pow_add_r by lia. exact HP. }
  symmetry. 
  destruct (Z.eq_dec rho 0) as [R0|Rn0].
  - (* exact multiple: the product lies just below k * W *)
    assert (H5 : 5 * P = 5 * k * (S * T) - n * X) by lia.
    set (delta := k * (S * T) - P).
    assert (Hdel : n * X = 5 * delta) by (unfold delta; lia).
    assert (Hdel2 : 0 < 2 * delta < S).
    { split; [lia|].
      destruct (Z_lt_le_dec (2 * delta) S) as [L|G]; [exact L|exfalso].
      assert (5 * S <= 2 * (n * X)) by lia.
      assert (5 * S * M085 <= 2 * P) by (unfold P; unfold M085 in *; nia).
      unfold M085 in *. nia. }
    assert (Hdiv : P / S = k * T - 1).
    { symmetry. apply Z.div_unique with (S - delta); [lia|].
      unfold delta. nia. }
    assert (Hmod : P mod S = S - delta).
    { symmetry. apply Z.mod_unique with (k * T - 1); [lia|].
      unfold delta. nia. }
    rewrite round_shift_up by (fold S; rewrite Hmod; lia).
    fold S. rewrite Hdiv.
    replace (k * T - 1 + 1) with (k * T) by lia.
    rewrite Z.div_mul by lia. reflexivity.
  - assert (HkW : k * T * S <= P).
    { assert (20 * (n * X) <= S * T).
      { rewrite HW. change (2 ^ 53) with 9007199254740992 in *. nia. }
      nia. }
    assert (Hup : P + S < (k + 1) * T * S).
    { assert (100 * S <= 5 * (S * T)) by nia.
      nia. }
    assert (Hq : k * T <= P / S).
    { apply Z.div_le_lower_bound; lia. }
    assert (Hq2 : P / S + 1 < (k + 1) * T).
    { assert (P / S < (k + 1) * T - 1); [|lia].
      apply Z.div_lt_upper_bound; [lia|]. nia. }
    apply Z.div_unique with (round_shift P s - k * T).
    + fold S. destruct (round_shift_cases P s) as [-> | ->]; fold S; lia.
    + lia.
Qed.

(** Below 2^48 the double computation is the exact floor of 85 percent. *)
Lemma scaled_exact (n : Z) :
  0 < n < 2 ^ 48 -> scaled n = Ok (n * 85 / 100).
Proof.
  intros [Hn Hn48]. unfold scaled, Config.MAX_HIDDEN_SIZE_RATIO.
  destruct (of_size_small n ltac:(lia)) as [m1 [E1 [Hm1 [Hr1 Hd]]]].
  set (d := Zdigits2 n) in *.
  destruct (Zdigits2_bounds n Hn) as [[Blo Bhi] _]. fold d in Blo, Bhi.
  assert (Hd48 : d <= 48).
  { assert (d - 1 < 48) by (apply pow2_lt_inv; lia). lia. }
  rewrite E1.
  destruct (mul_0_85 m1 (d - 53) Hr1 ltac:(lia))
    as [Hs [HP [Hq [m2 [e2 [E2 C]]]]]].
  rewrite Hm1 in Hs, HP, Hq, C.
  set (P := n * 2 ^ (53 - d) * M085) in *.
  set (s := Zdigits2 P - 53) in *.
  rewrite E2.
  pose proof (round_then_truncate n d s Hn (conj Blo Bhi) ltac:(lia) Hs HP) as R.
  fold P in R.
  replace (d - 53 - 53 + s) with (- (106 - d - s)) in C by lia.
  rewrite (to_size_rounded m2 e2 (round_shift P s) (- (106 - d - s)) C).
  - replace (0 <=? - (106 - d - s)) with false
      by (symmetry; apply Z.leb_gt; lia).
    rewrite Z.opp_involutive, R. reflexivity.
  - replace (0 <=? - (106 - d - s)) with false
      by (symmetry; apply Z.leb_gt; lia).
    rewrite Z.opp_involutive, R.
    apply Z.div_lt_upper_bound; lia.
Qed.

(** From 2^48 to 2^53 the result keeps at least 47 bits. *)
Lemma scaled_mid (n : Z) :
  2 ^ 48 <= n < 2 ^ 53 -> exists z, scaled n = Ok z /\ 2 ^ 47 <= z < 2 ^ 64.
Proof.
  intros [Hlo Hhi]. unfold scaled, Config.MAX_HIDDEN_SIZE_RATIO.
  destruct (of_size_small n ltac:(lia)) as [m1 [E1 [Hm1 [Hr1 Hd]]]].
  set (d := Zdigits2 n) in *.
  destruct (Zdigits2_bounds n ltac:(lia)) as [[Blo Bhi] _]. fold d in Blo, Bhi.
  assert (Hd49 : 49 <= d).
  { assert (48 < d) by (apply pow2_lt_inv; lia). lia. }
  rewrite E1.
  destruct (mul_0_85 m1 (d - 53) Hr1 ltac:(lia))
    as [Hs [HP [Hq [m2 [e2 [E2 C]]]]]].
  set (P := Z.pos m1 * M085) in *.
  set (s := Zdigits2 P - 53) in *.
  set (q' := round_shift P s) in *.
  set (a := d - 53 - 53 + s) in *.
  rewrite E2.
  assert (Ha : -5 <= a <= 0) by (unfold a; lia).
  assert (Hz : 2 ^ 47 <= (if 0 <=? a then q' * 2 ^ a else q' / 2 ^ (- a)) < 2 ^ 64).
  { destruct (Z.leb_spec 0 a) as [A|A].
    - replace a with 0 by lia. change (2 ^ 0) with 1. lia.
    - assert (0 < 2 ^ (- a)) by (apply Z.pow_pos_nonneg; lia).
      assert (2 ^ (- a) <= 2 ^ 5) by (apply Z.pow_le_mono_r; lia).
      split.
      + apply Z.div_le_lower_bound; [lia|].
        change (2 ^ 47) with 140737488355328 in *.
        change (2 ^ 52) with 4503599627370496 in *.
        change (2 ^ 5) with 32 in *. nia.
      + apply Z.div_lt_upper_bound; [lia|].
        change (2 ^ 64) with 18446744073709551616 in *.
        change (2 ^ 53) with 9007199254740992 in *. nia. }
  eexists. split.
  - apply (to_size_rounded m2 e2 q' a C). apply Hz.
  - exact Hz.
Qed.

(** From 2^53 to 2^64 the result is at least 2^52 and still fits. *)
Lemma scaled_huge (n : Z) :
  2 ^ 53 <= n < 2 ^ 64 -> exists z, scaled n = Ok z /\ 2 ^ 52 <= z < 2 ^ 64.
Proof.
  intros Hn. unfold scaled, Config.MAX_HIDDEN_SIZE_RATIO.
  destruct (of_size_large n Hn) as [m1 [e1 [E1 [Hr1 [He1 HV]]]]].
  rewrite E1.
  destruct (mul_0_85 m1 e1 Hr1 ltac:(lia))
    as [Hs [HP [Hq [m2 [e2 [E2 C]]]]]].
  set (P := Z.pos m1 * M085) in *.
  set (s := Zdigits2 P - 53) in *.
  set (q' := round_shift P s) in *.
  set (a := e1 - 53 + s) in *.
  rewrite E2.
  assert (Ha : 0 <= a <= 12) by (unfold a; lia).
  assert (PA : 1 <= 2 ^ a).
  { change 1 with (2 ^ 0). apply Z.pow_le_mono_r; lia. }
  assert (PE : 0 < 2 ^ e1 <= 2 ^ 12).
  { split; [apply Z.pow_pos_nonneg; lia | apply Z.pow_le_mono_r; lia]. }
  assert (PS : 0 < 2 ^ s <= 2 ^ 53).
  { split; [apply Z.pow_pos_nonneg; lia | apply Z.pow_le_mono_r; lia]. }
  assert (EA : 2 ^ a * 2 ^ 53 = 2 ^ s * 2 ^ e1).
  { rewrite <- !Z.pow_add_r by lia. f_equal. unfold a. lia. }
  pose proof (round_shift_le P s ltac:(lia) ltac:(lia)) as Hle. fold q' in Hle.
  assert (Hz : 2 ^ 52 <= q' * 2 ^ a < 2 ^ 64).
  { split; [nia|].
    assert (q' * 2 ^ a * 2 ^ 53 <= 2 ^ 64 * M085 + 2 ^ 53 * 2 ^ 12).
    { replace (q' * 2 ^ a * 2 ^ 53) with (q' * 2 ^ s * 2 ^ e1)
        by (rewrite <- !Z.mul_assoc; now rewrite EA).
      assert (q' * 2 ^ s * 2 ^ e1 <= (P + 2 ^ s) * 2 ^ e1) by nia.
      assert (P * 2 ^ e1 = Z.pos m1 * 2 ^ e1 * M085) by (unfold P; lia).
      assert (Z.pos m1 * 2 ^ e1 * M085 <= 2 ^ 64 * M085)
        by (unfold M085; nia).
      nia. }
    unfold M085 in *.
    change (2 ^ 64) with 18446744073709551616 in *.
    change (2 ^ 53) with 9007199254740992 in *.
    change (2 ^ 12) with 4096 in *. lia. }
  eexists. split.
  - pose proof (to_size_rounded m2 e2 q' a C) as T. cbn zeta in T.
    replace (0 <=? a) with true in T by (symmetry; apply Z.leb_le; lia).
    apply T. apply Hz.
  - exact Hz.
Qed.

(* ================================================================== *)
(** * The capacity policy *)
(* ================================================================== *)

(** For every host that passes the minimum check, 85 percent of its
    size is at least the header size. *)
Lemma scaled_at_least_header (n : Z) :
  Config.MIN_HOST_SIZE <= n < 2 ^ 64 ->
  exists z,
    scaled n = Ok z /\ HEADER_SIZE <= z /\
    (n < 2 ^ 48 -> z = n * 85 / 100).
Proof.
  unfold Config.MIN_HOST_SIZE. intros [Hlo Hhi].
  assert (HH : HEADER_SIZE = 276) by reflexivity.
  destruct (Z_lt_le_dec n (2 ^ 48)) as [H48|H48].
  - exists (n * 85 / 100). rewrite scaled_exact by lia.
    split; [reflexivity|]. split; [|reflexivity].
    rewrite HH. apply Z.div_le_lower_bound; lia.
  - destruct (Z_lt_le_dec n (2 ^ 53)) as [H53|H53].
    + destruct (scaled_mid n ltac:(lia)) as [z [E Hz]].
      exists z. split; [exact E|]. split; lia.
    + destruct (scaled_huge n ltac:(lia)) as [z [E Hz]].
      exists z. split; [exact E|]. split; lia.
Qed.

(** Beyond the exact range the rounding of the product shows: for a host
    of 2251799813685267 bytes the computation yields one more than the
    exact floor of 85 percent. *)
Remark scaled_rounds_beyond_exact_range :
  scaled 2251799813685267 = Ok 1914029841632477 /\
  2251799813685267 * 85 / 100 = 1914029841632476.
Proof.
  split; vm_compute; reflexivity.
Qed.

Lemma validateAndCalculateMaxSize_unfold (hiddenSize hostSize z : Z) :
  Config.MIN_HOST_SIZE <= hostSize ->
  scaled hostSize = Ok z -> HEADER_SIZE <= z ->
  FileValidator.validateAndCalculateMaxSize hiddenSize hostSize =
  if hiddenSize >? z - HEADER_SIZE
  then Err (FileSizeException (ExceedsAllowable hiddenSize (z - HEADER_SIZE)))
  else Ok (z - HEADER_SIZE).
Proof.
  intros Hmin Hs Hz. unfold FileValidator.validateAndCalculateMaxSize.
  replace (hostSize <? Config.MIN_HOST_SIZE) with false
    by (symmetry; apply Z.ltb_ge; exact Hmin).
  fold (scaled hostSize). rewrite Hs. cbn [bind].
  replace (z <? HEADER_SIZE) with false
    by (symmetry; apply Z.ltb_ge; exact Hz).
  reflexivity.
Qed.

(** C4. Below 10240 bytes of host the check fails with the size error
    "Host file too small".  From 10240 bytes on, the capacity is the
    truncated binary64 product [hostSize * 0.85] minus the header size
    (for hosts below 2^48 bytes the product is the exact floor of 85
    percent); a payload above the capacity is refused with a size error,
    a payload up to the capacity is accepted, and the capacity itself is
    the boundary. *)
Theorem capacity_is_the_success_boundary (hiddenSize hostSize : Z)
        (Hsize_t : 0 <= hostSize < 2 ^ 64) :
  (hostSize < 10240 ->
   FileValidator.validateAndCalculateMaxSize hiddenSize hostSize
     = Err (FileSizeException HostTooSmall))
  /\
  (10240 <= hostSize ->
   exists maxHidden,
     scaled hostSize = Ok maxHidden /\
     (hostSize < 2 ^ 48 -> maxHidden = hostSize * 85 / 100) /\
     let capacity := maxHidden - HEADER_SIZE in
     0 <= capacity /\
     (hiddenSize > capacity ->
      FileValidator.validateAndCalculateMaxSize hiddenSize hostSize
        = Err (FileSizeException (ExceedsAllowable hiddenSize capacity))) /\
     (hiddenSize <= capacity ->
      FileValidator.validateAndCalculateMaxSize hiddenSize hostSize
        = Ok capacity) /\
     FileValidator.validateAndCalculateMaxSize capacity hostSize
       = Ok capacity /\
     FileValidator.validateAndCalculateMaxSize (capacity + 1) hostSize
       = Err (FileSizeException (ExceedsAllowable (capacity + 1) capacity))).
Proof.
  split.
  - intros Hs. unfold FileValidator.validateAndCalculateMaxSize.
    replace (hostSize <? Config.MIN_HOST_SIZE) with true
      by (symmetry; apply Z.ltb_lt; exact Hs).
    reflexivity.
  - intros Hmin.
    destruct (scaled_at_least_header hostSize) as [z [Es [Hz Hex]]].
    { unfold Config.MIN_HOST_SIZE. lia. }
    exists z. split; [exact Es|]. split; [exact Hex|].
    cbn zeta.
    assert (U := fun h => validateAndCalculateMaxSize_unfold h hostSize z
                            Hmin Es Hz).
    split; [lia|]. split; [|split; [|split]].
    + intros Hgt. rewrite U.
      replace (_ >? _) with true by (symmetry; apply Z.gtb_lt; lia).
      reflexivity.
    + intros Hle. rewrite U.
      replace (_ >? _) with false
        by (symmetry; rewrite Z.gtb_ltb; apply Z.ltb_ge; lia).
      reflexivity.
    + rewrite U.
      replace (_ >? _) with false
        by (symmetry; rewrite Z.gtb_ltb; apply Z.ltb_ge; lia).
      reflexivity.
    + rewrite U.
      replace (_ >? _) with true by (symmetry; apply Z.gtb_lt; lia).
      reflexivity.
Qed.

Lemma capacity_is_the_success_boundary_witness :
  exists maxHidden,
    scaled 20000 = Ok maxHidden /\
    (20000 < 2 ^ 48 -> maxHidden = 20000 * 85 / 100) /\
    let capacity := maxHidden - HEADER_SIZE in
    0 <= capacity /\
    (5 > capacity ->
     FileValidator.validateAndCalculateMaxSize 5 20000
       = Err (FileSizeException (ExceedsAllowable 5 capacity))) /\
    (5 <= capacity ->
     FileValidator.validateAndCalculateMaxSize 5 20000 = Ok capacity) /\
    FileValidator.validateAndCalculateMaxSize capacity 20000 = Ok capacity /\
    FileValidator.validateAndCalculateMaxSize (capacity + 1) 20000
      = Err (FileSizeException (ExceedsAllowable (capacity + 1) capacity)).
Proof.
  apply (proj2 (capacity_is_the_success_boundary 5 20000
                  ltac:(vm_compute; split; [discriminate | reflexivity]))).
  vm_compute. discriminate.
Defined.

(** C10. For a host of at least 10240 bytes the product
    [hostSize * 0.85] is never below the header size, so the error
    "Host file too small to hide any data" is never raised, neither by
    the check nor by [hideFile]. *)
Theorem no_room_branch_unreachable (hiddenSize hostSize : Z)
        (Hmin : 10240 <= hostSize) (Hsize_t : hostSize < 2 ^ 64) :
  (exists maxHidden, scaled hostSize = Ok maxHidden /\ HEADER_SIZE <= maxHidden)
  /\
  FileValidator.validateAndCalculateMaxSize hiddenSize hostSize
    <> Err (FileSizeException HostTooSmallForAnyData)
  /\
  (forall junk fs hidden host out,
      Utils.getFileSize fs host < 2 ^ 64 ->
      hideFile junk fs hidden host out
        <> Err (FileSizeException HostTooSmallForAnyData)).
Proof.
  assert (V : forall h n, n < 2 ^ 64 ->
              FileValidator.validateAndCalculateMaxSize h n
                <> Err (FileSizeException HostTooSmallForAnyData)).
  { intros h n Hn.
    destruct (Z_lt_le_dec n Config.MIN_HOST_SIZE) as [Hs|Hm].
    - unfold FileValidator.validateAndCalculateMaxSize.
      replace (n <? Config.MIN_HOST_SIZE) with true
        by (symmetry; apply Z.ltb_lt; exact Hs).
      discriminate.
    - destruct (scaled_at_least_header n ltac:(lia)) as [z [Es [Hz _]]].
      rewrite (validateAndCalculateMaxSize_unfold h n z Hm Es Hz).
      destruct (_ >? _); discriminate. }
  split; [|split].
  - destruct (scaled_at_least_header hostSize) as [z [Es [Hz _]]].
    { unfold Config.MIN_HOST_SIZE. lia. }
    exists z. split; assumption.
  - apply V. exact Hsize_t.
  - intros junk fs hidden host out Hn. unfold hideFile.
    destruct (FileValidator.validateFileAccess fs hidden _) as [[]|e|] eqn:A1;
      cbn [bind].
    2:{ unfold FileValidator.validateFileAccess in A1.
        destruct hidden; [|destruct (negb _)]; congruence. }
    2: discriminate.
    destruct (FileValidator.validateFileAccess fs host _) as [[]|e|] eqn:A2;
      cbn [bind].
    2:{ unfold FileValidator.validateFileAccess in A2.
        destruct host; [|destruct (negb _)]; congruence. }
    2: discriminate.
    pose proof (V (Utils.getFileSize fs hidden) _ Hn) as Hv.
    destruct (FileValidator.validateAndCalculateMaxSize _ _) as [c|e|];
      cbn [bind]; [|congruence|discriminate].
    unfold FileIOManager.readFile.
    destruct (contents fs host); cbn [bind]; [|discriminate].
    destruct (contents fs hidden); cbn [bind]; [|discriminate].
    unfold FileIOManager.writeFile.
    destruct (creatable fs _); cbn [bind]; discriminate.
Qed.

Lemma no_room_branch_unreachable_witness :
  exists maxHidden, scaled 10240 = Ok maxHidden /\ HEADER_SIZE <= maxHidden.
Proof.
  apply (proj1 (no_room_branch_unreachable 0 10240
                  ltac:(vm_compute; discriminate)
                  ltac:(vm_compute; reflexivity))).
Defined.

(* ================================================================== *)
(** * Further properties of the header codec *)
(* ================================================================== *)

(** X1. Reading back a serialised header gives the header, whatever the
    padding bytes held and whatever follows it in the buffer. *)
Theorem deserialize_serialize (junk : nat -> byte) (h : StegoHeader)
        (rest : list byte) (Hwf : header_wf h) :
  deserializeHeader (serializeHeader junk h ++ rest) = Ok h.
Proof.
  unfold deserializeHeader.
  pose proof (serializeHeader_length junk h (wf_filename h Hwf)) as L.
  rewrite length_app, Nat2Z.inj_add, L.
  replace (HEADER_SIZE + Z.of_nat (length rest) <? HEADER_SIZE) with false
    by (symmetry; apply Z.ltb_ge; lia).
  now rewrite header_of_bytes_serialize.
Qed.

Lemma deserialize_serialize_witness :
  deserializeHeader (serializeHeader zero_junk sample_header ++ str "tail")
    = Ok sample_header.
Proof.
  exact (deserialize_serialize zero_junk sample_header (str "tail")
           sample_header_wf).
Defined.

Lemma le_encode_decode (bs : list byte) :
  le_encode (length bs) (le_decode bs) = bs.
Proof.
  induction bs as [|b bs IH]; [reflexivity|].
  cbn [length le_encode le_decode].
  pose proof (Z_of_byte_range b) as Hb.
  f_equal.
  - apply Z_of_byte_inj. rewrite Z_of_byte_of_Z.
    rewrite (Z.mul_comm 256), Z.mod_add by lia.
    apply Z.mod_small. lia.
  - rewrite (Z.mul_comm 256), Z.div_add by lia.
    rewrite Z.div_small by lia. exact IH.
Qed.

Lemma firstn_plus (l : list byte) (n m : nat) :
  firstn (n + m) l = firstn n l ++ firstn m (skipn n l).
Proof.
  revert l. induction n as [|n IH]; intros l; [reflexivity|].
  destruct l as [|x l]; cbn [Nat.add firstn skipn app].
  - now rewrite firstn_nil.
  - now rewrite IH.
Qed.

Lemma slice_split (b : list byte) (off n m : nat) :
  slice b off (n + m) = slice b off n ++ slice b (off + n) m.
Proof.
  unfold slice. rewrite firstn_plus, skipn_skipn.
  now rewrite (Nat.add_comm n off).
Qed.

Lemma padding_junk_of (b : list byte) (from to : nat) :
  (to <= length b)%nat ->
  padding (junk_of b) from to = slice b from (to - from).
Proof.
  intros Hto. unfold padding, junk_of, slice.
  remember (to - from)%nat as n eqn:En.
  assert (Hb : (n = 0 \/ from + n <= length b)%nat) by lia.
  clear En Hto. revert from Hb.
  induction n as [|n IH]; intros from Hb; [reflexivity|].
  cbn [seq map].
  destruct Hb as [Hb|Hb]; [discriminate|].
  rewrite IH by lia.
  assert (Hlt : (from < length b)%nat) by lia.
  clear IH Hb.
  revert from Hlt. induction b as [|x b IHb]; intros from Hlt.
  - simpl in Hlt. lia.
  - destruct from as [|from].
    + reflexivity.
    + cbn [nth skipn]. simpl in Hlt. apply IHb. lia.
Qed.

(** X2. Serialising the header read from a header-sized buffer, with the
    buffer's own padding bytes, gives the buffer back: a header read
    loses nothing but the four padding bytes. *)
Theorem serialize_deserialize (buffer : list byte)
        (Hlen : Z.of_nat (length buffer) = HEADER_SIZE) :
  exists h,
    deserializeHeader buffer = Ok h /\
    serializeHeader (junk_of buffer) h = buffer.
Proof.
  assert (HH : HEADER_SIZE = 276) by reflexivity.
  exists (header_of_bytes buffer). split.
  - unfold deserializeHeader. rewrite Hlen. now rewrite Z.ltb_irrefl.
  - unfold serializeHeader, header_of_bytes.
    cbn [magic version hiddenFileSize filenameLength filename checksum].
    assert (E : forall off n, (off + n <= 276)%nat ->
                  le_encode n (le_decode (slice buffer off n))
                  = slice buffer off n).
    { intros off n Hb.
      rewrite <- (slice_length buffer off n) at 1 by lia.
      apply le_encode_decode. }
    unfold off_magic, off_version, off_hiddenFileSize, off_filenameLength,
      off_filename, off_checksum.
    rewrite !E by lia.
    rewrite !padding_junk_of by lia.
    change (Z.to_nat Config.MAX_FILENAME_LENGTH) with 256%nat.
    change (8 - 6)%nat with 2%nat. change (272 - 270)%nat with 2%nat.
    transitivity (slice buffer 0 276).
    2:{ unfold slice. cbn [skipn]. apply firstn_all2. lia. }
    change (slice buffer 0 276) with (slice buffer 0 (4 + 272)).
    rewrite slice_split. f_equal.
    change (slice buffer (0 + 4) 272) with (slice buffer 4 (2 + 270)).
    rewrite slice_split. f_equal.
    change (slice buffer (4 + 2) 270) with (slice buffer 6 (2 + 268)).
    rewrite slice_split. f_equal.
    change (slice buffer (6 + 2) 268) with (slice buffer 8 (4 + 264)).
    rewrite slice_split. f_equal.
    change (slice buffer (8 + 4) 264) with (slice buffer 12 (2 + 262)).
    rewrite slice_split. f_equal.
    change (slice buffer (12 + 2) 262) with (slice buffer 14 (256 + 6)).
    rewrite slice_split. f_equal.
    change (slice buffer (14 + 256) 6) with (slice buffer 270 (2 + 4)).
    rewrite slice_split. reflexivity.
Qed.

Lemma serialize_deserialize_witness :
  exists h,
    deserializeHeader (serializeHeader zero_junk sample_header) = Ok h /\
    serializeHeader (junk_of (serializeHeader zero_junk sample_header)) h
      = serializeHeader zero_junk sample_header.
Proof.
  apply (serialize_deserialize (serializeHeader zero_junk sample_header)).
  vm_compute. reflexivity.
Defined.

(** X3. [deserializeHeader] rejects exactly the buffers shorter than the
    header object; any other buffer is read, the result is a header with
    every field in range, and bytes behind the first 276 play no part. *)
Theorem deserializeHeader_outcome (buffer : list byte) :
  (deserializeHeader buffer = Err (InvalidFormatException InvalidHeaderSize)
   <-> Z.of_nat (length buffer) < 276)
  /\
  (276 <= Z.of_nat (length buffer) ->
   exists h,
     deserializeHeader buffer = Ok h /\ header_wf h /\
     forall rest, deserializeHeader (firstn 276 buffer ++ rest) = Ok h).
Proof.
  assert (HH : HEADER_SIZE = 276) by reflexivity.
  split.
  - unfold deserializeHeader. rewrite HH.
    destruct (Z.ltb_spec (Z.of_nat (length buffer)) 276); split;
      intros; try reflexivity; try discriminate; lia.
  - intros Hlen. exists (header_of_bytes buffer).
    split; [|split].
    + unfold deserializeHeader. rewrite HH.
      now replace (_ <? _) with false by (symmetry; apply Z.ltb_ge; lia).
    + apply header_of_bytes_wf. change (Z.to_nat HEADER_SIZE) with 276%nat. lia.
    + intros rest. unfold deserializeHeader.
      rewrite length_app, length_firstn, Nat.min_l by lia.
      rewrite HH.
      replace (_ <? _) with false by (symmetry; apply Z.ltb_ge; lia).
      f_equal.
      assert (S : forall off n, (off + n <= 276)%nat ->
                   slice (firstn 276 buffer ++ rest) off n = slice buffer off n).
      { intros off n Hb. unfold slice.
        rewrite skipn_app, firstn_app.
        rewrite length_skipn, length_firstn, Nat.min_l by lia.
        replace (n - (276 - off))%nat with 0%nat by lia.
        rewrite firstn_O, app_nil_r.
        rewrite skipn_firstn_comm, firstn_firstn.
        f_equal. lia. }
      unfold header_of_bytes.
      unfold off_magic, off_version, off_hiddenFileSize, off_filenameLength,
        off_filename, off_checksum.
      change (Z.to_nat Config.MAX_FILENAME_LENGTH) with 256%nat.
      rewrite !S by lia. reflexivity.
Qed.

Lemma deserializeHeader_outcome_witness :
  exists h,
    deserializeHeader sample_stego = Ok h /\ header_wf h /\
    forall rest, deserializeHeader (firstn 276 sample_stego ++ rest) = Ok h.
Proof.
  apply (proj2 (deserializeHeader_outcome sample_stego)).
  vm_compute. discriminate.
Defined.

(* ================================================================== *)
(** * Further properties of the extraction *)
(* ================================================================== *)

(** The extraction of [front ++ header ++ payload ++ trailer] for any
    valid header that records the payload's length, when no window
    behind the start of the header validates. *)
Lemma extractData_composite (junk : nat -> byte) (h : StegoHeader)
      (front payload trailer : list byte) :
  header_wf h -> validate h = true ->
  hiddenFileSize h = Z.of_nat (length payload) ->
  (1 <= length front)%nat ->
  (forall r, (1 <= r <= length payload + length trailer)%nat ->
             valid_at (serializeHeader junk h ++ payload ++ trailer) r = false) ->
  snd (extractData (front ++ serializeHeader junk h ++ payload ++ trailer))
    = Ok (h, payload).
Proof.
  intros Hwf Hval Hsz Hfront Hlast.
  assert (HH : HEADER_SIZE = 276) by reflexivity.
  pose proof (serializeHeader_length junk h (wf_filename _ Hwf)) as Hser.
  set (ser := serializeHeader junk h) in *.
  set (data := front ++ ser ++ payload ++ trailer).
  assert (Hlen : Z.of_nat (length data)
                 = Z.of_nat (length front) + 276
                   + Z.of_nat (length payload) + Z.of_nat (length trailer)).
  { unfold data. rewrite !length_app. lia. }
  assert (Hstart : scan_start data
                   = (length front + (length payload + length trailer))%nat).
  { unfold scan_start. lia. }
  assert (Hwin : window data (length front) = h).
  { unfold window, data.
    replace (Z.to_nat HEADER_SIZE) with (length ser) by lia.
    rewrite slice_app_middle.
    rewrite <- (app_nil_r ser). apply header_of_bytes_serialize. exact Hwf. }
  assert (Hscan : snd (scan_loop data (scan_start data))
                  = Ok (Some (length front))).
  { rewrite (scan_loop_finds data (scan_start data) (length front)).
    - reflexivity.
    - lia.
    - lia.
    - unfold valid_at. rewrite Hwin. exact Hval.
    - intros j Hj. unfold valid_at.
      replace j with (length front + (j - length front))%nat by lia.
      unfold data. rewrite window_app_skip.
      apply Hlast. lia. }
  rewrite (extractData_found data (length front)) by (exact Hscan || lia).
  rewrite Hwin, Hsz.
  replace (_ >? _) with false
    by (symmetry; rewrite Z.gtb_ltb; apply Z.ltb_ge; lia).
  do 2 f_equal.
  unfold data. rewrite slice_app_skip by lia.
  rewrite slice_app_skip by lia.
  replace (length front + Z.to_nat HEADER_SIZE - length front
           - length ser)%nat with 0%nat by lia.
  rewrite Nat2Z.id. unfold slice. cbn [skipn].
  rewrite firstn_app, Nat.sub_diag, firstn_O, app_nil_r.
  apply firstn_all.
Qed.

(** X4. Bytes appended behind the payload of a stego file do not disturb
    the extraction: the size check only asks that the recorded size fits,
    so the header is still found and exactly the payload is returned,
    as long as no window in the appended bytes validates. *)
Theorem extraction_ignores_trailing_bytes
        (junk : nat -> byte) (hidden host payload trailer : list byte)
        (Hhost : (1 <= length host)%nat)
        (H32 : Z.of_nat (length payload) < 2 ^ 32)
        (Hlast : forall r, (1 <= r <= length payload + length trailer)%nat ->
                   valid_at (serializeHeader junk
                               (createHeader hidden (Z.of_nat (length payload)))
                             ++ payload ++ trailer) r = false) :
  snd (extractData
         (host
          ++ serializeHeader junk (createHeader hidden (Z.of_nat (length payload)))
          ++ payload ++ trailer))
  = Ok (createHeader hidden (Z.of_nat (length payload)), payload).
Proof.
  apply extractData_composite; try assumption.
  - apply createHeader_wf.
  - apply createHeader_validate.
  - rewrite createHeader_hiddenFileSize. unfold u32. apply Z.mod_small. lia.
Qed.

Lemma extraction_ignores_trailing_bytes_witness :
  snd (extractData
         (str "H"
          ++ serializeHeader zero_junk (createHeader (str "a/msg.txt") 2)
          ++ str "hi" ++ str "xyz"))
  = Ok (createHeader (str "a/msg.txt") 2, str "hi").
Proof.
  apply (extraction_ignores_trailing_bytes zero_junk (str "a/msg.txt")
           (str "H") (str "hi") (str "xyz")).
  - vm_compute. lia.
  - vm_compute. reflexivity.
  - intros r Hr. change (length (str "hi") + length (str "xyz"))%nat with 5%nat in Hr.
    assert (C : r = 1%nat \/ r = 2%nat \/ r = 3%nat \/ r = 4%nat \/ r = 5%nat) by lia.
    destruct C as [->|[->|[->|[->| ->]]]]; vm_compute; reflexivity.
Defined.

(** X5. The payload is not protected by the checksum: when the payload
    bytes of a stego file are replaced by others of the same number, the
    extraction succeeds all the same and returns the replaced bytes. *)
Theorem payload_tampering_is_not_detected
        (junk : nat -> byte) (hidden host payload tampered : list byte)
        (Hhost : (1 <= length host)%nat)
        (H32 : Z.of_nat (length payload) < 2 ^ 32)
        (Hsame : length tampered = length payload)
        (Hlast : forall r, (1 <= r <= length tampered)%nat ->
                   valid_at (serializeHeader junk
                               (createHeader hidden (Z.of_nat (length payload)))
                             ++ tampered) r = false) :
  snd (extractData
         (host
          ++ serializeHeader junk (createHeader hidden (Z.of_nat (length payload)))
          ++ tampered))
  = Ok (createHeader hidden (Z.of_nat (length payload)), tampered).
Proof.
  rewrite <- (app_nil_r tampered) at 1.
  apply extractData_composite; try assumption.
  - apply createHeader_wf.
  - apply createHeader_validate.
  - rewrite createHeader_hiddenFileSize, Hsame. unfold u32.
    apply Z.mod_small. lia.
  - intros r Hr. rewrite app_nil_r. apply Hlast. simpl in Hr. lia.
Qed.

Lemma payload_tampering_is_not_detected_witness :
  snd (extractData
         (str "H"
          ++ serializeHeader zero_junk
               (createHeader (str "a/msg.txt") (Z.of_nat (length (str "hello"))))
          ++ str "HELLO"))
  = Ok (createHeader (str "a/msg.txt") (Z.of_nat (length (str "hello"))),
        str "HELLO").
Proof.
  apply (payload_tampering_is_not_detected zero_junk (str "a/msg.txt")
           (str "H") (str "hello") (str "HELLO")).
  - vm_compute. lia.
  - vm_compute. reflexivity.
  - reflexivity.
  - intros r Hr. change (length (str "HELLO")) with 5%nat in Hr.
    assert (C : r = 1%nat \/ r = 2%nat \/ r = 3%nat \/ r = 4%nat \/ r = 5%nat) by lia.
    destruct C as [->|[->|[->|[->| ->]]]]; vm_compute; reflexivity.
Defined.








(* ================================================================== *)
(** * Names and extensions *)
(* ================================================================== *)

Lemma member_separator (c : byte) :
  Utils.member c [Utils.slash; Utils.backslash] = true <-> is_separator c.
Proof.
  unfold Utils.member, is_separator. cbn [existsb].
  rewrite !orb_true_iff, !byte_eqb_eq. intuition congruence.
Qed.

Lemma tolower_not_upper (c : byte) : is_upper (Utils.tolower c) = false.
Proof. destruct c; reflexivity. Qed.

Lemma tolower_dot (c : byte) : Utils.tolower c = Utils.dot <-> c = Utils.dot.
Proof. destruct c; vm_compute; split; congruence. Qed.

Lemma tolower_separator (c : byte) :
  is_separator (Utils.tolower c) <-> is_separator c.
Proof.
  unfold is_separator.
  destruct c; vm_compute; split; intros [H|H]; try discriminate H; auto.
Qed.

Lemma tolower_idempotent (c : byte) :
  Utils.tolower (Utils.tolower c) = Utils.tolower c.
Proof. destruct c; reflexivity. Qed.

Lemma find_last_of_dot_None (s : list byte) :
  Utils.find_last_of [Utils.dot] s = None <-> ~ In Utils.dot s.
Proof.
  rewrite find_last_of_None. split.
  - intros H Hin. apply H in Hin. now apply member_dot_false in Hin.
  - intros H c Hin. apply member_dot_false. intros ->. now apply H.
Qed.

Lemma getExtension_dotted (pre suf : list byte) :
  ~ In Utils.dot suf ->
  Utils.getExtension (pre ++ Utils.dot :: suf)
    = Utils.dot :: map Utils.tolower suf.
Proof.
  intros Hsuf. unfold Utils.getExtension.
  rewrite find_last_of_app. cbn [Utils.find_last_of].
  apply find_last_of_dot_None in Hsuf. rewrite Hsuf.
  replace (Utils.member Utils.dot [Utils.dot]) with true
    by (symmetry; now apply member_dot).
  unfold Utils.substr. rewrite Nat.add_0_r.
  rewrite skipn_app, skipn_all, Nat.sub_diag. reflexivity.
Qed.

Lemma split_last_dot (s : list byte) :
  In Utils.dot s ->
  exists pre suf, s = pre ++ Utils.dot :: suf /\ ~ In Utils.dot suf.
Proof.
  intros Hin.
  destruct (Utils.find_last_of [Utils.dot] s) as [p|] eqn:E.
  - destruct (find_last_of_Some _ _ _ E) as [pre [c [suf [Hs [_ [Hc Hn]]]]]].
    apply member_dot in Hc. subst c.
    exists pre, suf. split; [exact Hs|]. now apply find_last_of_dot_None.
  - apply find_last_of_dot_None in E. contradiction.
Qed.

Lemma extractFilename_split (fullPath : list byte) :
  exists dir,
    fullPath = dir ++ Utils.extractFilename fullPath /\
    (dir = [] \/ exists d c, dir = d ++ [c] /\ is_separator c) /\
    Utils.find_last_of [Utils.slash; Utils.backslash]
      (Utils.extractFilename fullPath) = None.
Proof.
  unfold Utils.extractFilename.
  destruct (Utils.find_last_of [Utils.slash; Utils.backslash] fullPath)
    as [p|] eqn:E.
  - destruct (find_last_of_Some _ _ _ E) as [pre [c [suf [Hs [Hp [Hc Hn]]]]]].
    assert (Hsub : Utils.substr fullPath (p + 1) = suf).
    { unfold Utils.substr. subst fullPath p.
      replace (pre ++ c :: suf) with ((pre ++ [c]) ++ suf)
        by (rewrite <- app_assoc; reflexivity).
      replace (length pre + 1)%nat with (length (pre ++ [c]))
        by (rewrite length_app; reflexivity).
      rewrite skipn_app, skipn_all, Nat.sub_diag. reflexivity. }
    rewrite Hsub. exists (pre ++ [c]). split; [|split].
    + rewrite <- app_assoc. exact Hs.
    + right. exists pre, c. split; [reflexivity|].
      now apply member_separator.
    + exact Hn.
  - exists []. split; [reflexivity|]. split; [now left | exact E].
Qed.

Lemma extractFilename_no_separator (fullPath : list byte) (c : byte) :
  In c (Utils.extractFilename fullPath) -> ~ is_separator c.
Proof.
  destruct (extractFilename_split fullPath) as [dir [_ [_ Hn]]].
  intros Hx Hsep. apply member_separator in Hsep.
  pose proof (proj1 (find_last_of_None _ _) Hn c Hx). congruence.
Qed.

(** X9. [extractFilename] returns the final component of a path: what
    follows the last '/' or '\', the whole path when there is none.  The
    result holds no separator, the path is a directory part that ends in
    a separator (or is empty) followed by it, and applying the function
    again changes nothing. *)
Theorem extractFilename_is_the_final_component (fullPath : list byte) :
  let name := Utils.extractFilename fullPath in
  (forall c, In c name -> ~ is_separator c) /\
  (exists dir, fullPath = dir ++ name /\
               (dir = [] \/ exists d c, dir = d ++ [c] /\ is_separator c)) /\
  Utils.extractFilename name = name.
Proof.
  cbn zeta.
  destruct (extractFilename_split fullPath) as [dir [Hs [Hdir Hn]]].
  split; [|split].
  - intros c. apply extractFilename_no_separator.
  - exists dir. split; assumption.
  - unfold Utils.extractFilename at 1. now rewrite Hn.
Qed.

(** X10. [getExtension] returns the empty string exactly for names
    without a '.'; otherwise the result starts with '.', holds no other
    '.', is no longer than the name, and in either case it holds no
    upper-case ASCII letter and is a fixed point of the function. *)
Theorem getExtension_shape (filename : list byte) :
  let ext := Utils.getExtension filename in
  (ext = [] <-> ~ In Utils.dot filename) /\
  (In Utils.dot filename ->
   exists suf, ext = Utils.dot :: suf /\ ~ In Utils.dot suf /\
               (length ext <= length filename)%nat) /\
  (forall c, In c ext -> is_upper c = false) /\
  Utils.getExtension ext = ext.
Proof.
  cbn zeta.
  assert (Hup : forall c, In c (Utils.getExtension filename) ->
                          is_upper c = false).
  { intros c. unfold Utils.getExtension.
    destruct (Utils.find_last_of [Utils.dot] filename); [|intros []].
    intros Hin. apply in_map_iff in Hin. destruct Hin as [x [<- _]].
    apply tolower_not_upper. }
  destruct (in_dec byte_eq_dec Utils.dot filename) as [Hin|Hnot].
  - destruct (split_last_dot _ Hin) as [pre [suf [Hs Hsuf]]].
    assert (Hlow : ~ In Utils.dot (map Utils.tolower suf)).
    { intros H. apply in_map_iff in H. destruct H as [x [Hx Hxin]].
      apply (proj1 (tolower_dot x)) in Hx. subst x. contradiction. }
    assert (Hext : Utils.getExtension filename
                   = Utils.dot :: map Utils.tolower suf).
    { rewrite Hs. now apply getExtension_dotted. }
    rewrite Hext.
    split; [|split; [|split]].
    + split; [discriminate | contradiction].
    + intros _. exists (map Utils.tolower suf).
      split; [reflexivity|]. split; [exact Hlow|].
      rewrite Hs, length_app. cbn [length]. rewrite length_map. lia.
    + rewrite <- Hext. exact Hup.
    + change (Utils.dot :: map Utils.tolower suf)
        with ([] ++ Utils.dot :: map Utils.tolower suf) at 1.
      rewrite (getExtension_dotted [] _ Hlow). f_equal.
      rewrite map_map. apply map_ext. apply tolower_idempotent.
  - assert (Hext : Utils.getExtension filename = []).
    { unfold Utils.getExtension.
      apply find_last_of_dot_None in Hnot. now rewrite Hnot. }
    rewrite Hext.
    split; [|split; [|split]].
    + split; [intros _; exact Hnot | reflexivity].
    + intros H. contradiction.
    + intros c [].
    + reflexivity.
Qed.

Lemma getExtension_shape_witness :
  exists suf,
    Utils.getExtension (str "Photo.v2.JPG") = Utils.dot :: suf /\
    ~ In Utils.dot suf /\
    (length (Utils.getExtension (str "Photo.v2.JPG"))
     <= length (str "Photo.v2.JPG"))%nat.
Proof.
  apply (proj1 (proj2 (getExtension_shape (str "Photo.v2.JPG")))).
  vm_compute. tauto.
Defined.

(** X11. The name [generateOutputFilename] produces carries a file
    extension whenever the original name has one (the original name
    being a final component, without separators); and when the caller's
    path had none, the extension of the result is the lower-cased
    extension of the original name. *)
Theorem output_name_carries_the_extension
        (userProvidedPath originalFilename : list byte)
        (Hdot : In Utils.dot originalFilename)
        (Hsep : forall c, In c originalFilename -> ~ is_separator c) :
  let out := Utils.generateOutputFilename userProvidedPath originalFilename in
  Utils.hasExtension out = true /\
  (Utils.hasExtension userProvidedPath = false ->
   Utils.getExtension out = Utils.getExtension originalFilename).
Proof.
  cbn zeta.
  destruct (split_last_dot _ Hdot) as [pre [suf [Hs Hsuf]]].
  assert (Hsufsep : forall c, In c suf ->
                      c <> Utils.slash /\ c <> Utils.backslash).
  { intros c Hc.
    assert (Hn : ~ is_separator c).
    { apply Hsep. rewrite Hs. apply in_or_app. right. now right. }
    unfold is_separator in Hn. tauto. }
  assert (Hext : Utils.getExtension originalFilename
                 = Utils.dot :: map Utils.tolower suf).
  { rewrite Hs. now apply getExtension_dotted. }
  assert (Hlow : ~ In Utils.dot (map Utils.tolower suf)).
  { intros H. apply in_map_iff in H. destruct H as [x [Hx Hxin]].
    apply (proj1 (tolower_dot x)) in Hx. subst x. contradiction. }
  unfold Utils.generateOutputFilename.
  destruct userProvidedPath as [|b rest].
  - split.
    + apply hasExtension_iff. exists (str "extracted_" ++ pre), suf.
      split; [rewrite Hs, <- app_assoc; reflexivity | exact Hsufsep].
    + intros _. rewrite Hs at 1.
      replace (str "extracted_" ++ pre ++ Utils.dot :: suf)
        with ((str "extracted_" ++ pre) ++ Utils.dot :: suf)
        by (rewrite <- app_assoc; reflexivity).
      rewrite getExtension_dotted by exact Hsuf. now rewrite Hext.
  - destruct (Utils.hasExtension (b :: rest)) eqn:E.
    + split; [exact E | discriminate].
    + rewrite Hext. split.
      * apply hasExtension_iff.
        exists (b :: rest), (map Utils.tolower suf).
        split; [reflexivity|].
        intros c Hc. apply in_map_iff in Hc. destruct Hc as [x [<- Hx]].
        assert (Hn : ~ is_separator (Utils.tolower x)).
        { rewrite tolower_separator. apply Hsep. rewrite Hs.
          apply in_or_app. right. now right. }
        unfold is_separator in Hn. tauto.
      * intros _. rewrite (getExtension_dotted (b :: rest) _ Hlow).
        f_equal. rewrite map_map. apply map_ext. apply tolower_idempotent.
Qed.

Lemma output_name_carries_the_extension_witness :
  Utils.hasExtension
    (Utils.generateOutputFilename (str "backup.d/out") (str "Host.PNG")) = true /\
  (Utils.hasExtension (str "backup.d/out") = false ->
   Utils.getExtension
     (Utils.generateOutputFilename (str "backup.d/out") (str "Host.PNG"))
   = Utils.getExtension (str "Host.PNG")).
Proof.
  apply (output_name_carries_the_extension (str "backup.d/out") (str "Host.PNG")).
  - vm_compute. tauto.
  - intros c Hin Hc. vm_compute in Hin, Hc.
    repeat (destruct Hin as [Hin|Hin];
            [subst c; destruct Hc as [Hc|Hc]; discriminate Hc|]).
    exact Hin.
Defined.

(* ================================================================== *)
(** * The header that [createHeader] builds, and its checksum *)
(* ================================================================== *)

Lemma strncpy_image_shape (src : list byte) (n : nat) :
  exists pre rest,
    src = pre ++ rest /\ ~ In x00 pre /\ (length pre <= n)%nat /\
    strncpy_image src n = pre ++ repeat x00 (n - length pre).
Proof.
  revert src. induction n as [|n IH]; intros src.
  - exists [], src. cbn [strncpy_image app length repeat Nat.sub].
    split; [reflexivity|split; [intros []|split; [cbn [length]; lia|reflexivity]]].
  - destruct src as [|c src'].
    + exists [], []. cbn [strncpy_image app length]. rewrite Nat.sub_0_r.
      split; [reflexivity|split; [intros []|split; [cbn [length]; lia|reflexivity]]].
    + cbn [strncpy_image]. destruct (byte_eqb c x00) eqn:E.
      * exists [], (c :: src'). cbn [app length]. rewrite Nat.sub_0_r.
        split; [reflexivity|split; [intros []|split; [cbn [length]; lia|reflexivity]]].
      * destruct (IH src') as [pre [rest [Hs [Hn [Hl He]]]]].
        exists (c :: pre), rest. split; [|split; [|split]].
        -- cbn [app]. now f_equal.
        -- apply byte_eqb_neq in E. intros [H|H]; [congruence | contradiction].
        -- cbn [length]. lia.
        -- rewrite He. cbn [app length]. now rewrite Nat.sub_succ.
Qed.

(** X12. The name array of a header built by [createHeader] always
    holds a terminated string: read as a C string it yields a prefix of
    the path's final component, cut at its first NUL byte if it has one,
    of at most [filenameLength] (at most 255) bytes, without path
    separators. *)
Theorem createHeader_name_is_terminated
        (hiddenFilename : list byte) (hiddenSize : Z) :
  let h := createHeader hiddenFilename hiddenSize in
  exists name rest,
    c_string (filename h) = Ok name /\
    Utils.extractFilename hiddenFilename = name ++ rest /\
    Z.of_nat (length name) <= filenameLength h <= 255 /\
    (forall c, In c name -> ~ is_separator c /\ c <> x00).
Proof.
  cbn zeta.
  rewrite createHeader_filename, createHeader_filenameLength.
  pose proof (name_length_range hiddenFilename) as Hk.
  destruct (strncpy_image_shape (Utils.extractFilename hiddenFilename)
              (Z.to_nat (name_length hiddenFilename)))
    as [pre [rest [Hs [Hn [Hl He]]]]].
  exists pre, rest. split; [|split; [|split]].
  - rewrite He, <- app_assoc, <- repeat_app.
    replace (Z.to_nat (name_length hiddenFilename) - length pre
             + (256 - Z.to_nat (name_length hiddenFilename)))%nat
      with (S (255 - length pre)) by lia.
    cbn [repeat]. now apply c_string_terminated.
  - exact Hs.
  - lia.
  - intros c Hc. split.
    + apply (extractFilename_no_separator hiddenFilename).
      rewrite Hs. apply in_or_app. now left.
    + intros ->. contradiction.
Qed.

(** X13. The checksum is an unweighted sum modulo 2^32 of the fields
    and the counted name bytes, so it cannot tell two headers apart
    whose sums agree: a change of one field that is compensated in
    another (or a reordering of the name bytes) leaves [validate]
    unchanged. *)
Theorem checksum_is_blind_to_compensated_changes (h h' : StegoHeader)
        (Hlen : length (filename h) = 256%nat)
        (Hlen' : length (filename h') = 256%nat)
        (Hmagic : magic h' = magic h)
        (Hsum : checksum h' = checksum h)
        (Htotal :
           u32 (version h' + hiddenFileSize h' + filenameLength h'
                + sum_bytes (firstn (Z.to_nat (filenameLength h')) (filename h')))
           = u32 (version h + hiddenFileSize h + filenameLength h
                  + sum_bytes (firstn (Z.to_nat (filenameLength h)) (filename h)))) :
  validate h' = validate h.
Proof.
  unfold validate.
  rewrite (calculateChecksum_closed h), (calculateChecksum_closed h')
    by (rewrite ?Hlen, ?Hlen'; vm_compute; lia).
  rewrite Hmagic, Hsum. do 2 f_equal.
  unfold u32 in *.
  replace (magic h + version h' + hiddenFileSize h' + filenameLength h'
           + sum_bytes (firstn (Z.to_nat (filenameLength h')) (filename h')))
    with (magic h + (version h' + hiddenFileSize h' + filenameLength h'
           + sum_bytes (firstn (Z.to_nat (filenameLength h')) (filename h'))))
    by ring.
  replace (magic h + version h + hiddenFileSize h + filenameLength h
           + sum_bytes (firstn (Z.to_nat (filenameLength h)) (filename h)))
    with (magic h + (version h + hiddenFileSize h + filenameLength h
           + sum_bytes (firstn (Z.to_nat (filenameLength h)) (filename h))))
    by ring.
  rewrite Z.add_mod by lia. rewrite Htotal. rewrite <- Z.add_mod by lia.
  reflexivity.
Qed.

Lemma checksum_is_blind_to_compensated_changes_witness :
  validate (mkHeader (magic sample_header) 2 4 (filenameLength sample_header)
              (filename sample_header) (checksum sample_header))
  = validate sample_header.
Proof.
  apply checksum_is_blind_to_compensated_changes;
    vm_compute; reflexivity.
Defined.

(* ================================================================== *)
(** * Outcomes of the extraction *)
(* ================================================================== *)

(** X14. The extraction fails in three ways only: the file is too
    small, no header is found, or the recorded size does not fit.  The
    exceptions for a corrupted header and for a header buffer of the
    wrong size are never raised by it. *)
Theorem extraction_raises_three_errors_only
        (data : list byte) (e : SteganographyException)
        (Herr : snd (extractData data) = Err e) :
  e = InvalidFormatException FileTooSmall \/
  e = InvalidFormatException NoHiddenData \/
  e = InvalidFormatException SizeMismatch.
Proof.
  destruct (Z.ltb_spec (Z.of_nat (length data)) HEADER_SIZE) as [Hs|Hl].
  - unfold extractData in Herr.
    replace (Z.of_nat (length data) <? HEADER_SIZE) with true in Herr
      by (symmetry; now apply Z.ltb_lt).
    cbn [snd] in Herr. left. congruence.
  - destruct (scan_loop_spec data (scan_start data) (scan_start_bound data Hl))
      as [[k [E _]] | [E _]].
    + rewrite (extractData_found data k Hl) in Herr by (now rewrite E).
      destruct (_ >? _) in Herr; [|discriminate]. right. right. congruence.
    + rewrite extractData_unfold in Herr by exact Hl.
      rewrite E in Herr. cbn [snd bind] in Herr. right. left. congruence.
Qed.

Lemma extraction_raises_three_errors_only_witness :
  InvalidFormatException FileTooSmall = InvalidFormatException FileTooSmall \/
  InvalidFormatException FileTooSmall = InvalidFormatException NoHiddenData \/
  InvalidFormatException FileTooSmall = InvalidFormatException SizeMismatch.
Proof.
  apply (extraction_raises_three_errors_only (str "short")).
  reflexivity.
Defined.

Lemma c_string_undefined (arr : list byte) :
  c_string arr = Undefined <-> ~ In x00 arr.
Proof.
  induction arr as [|c rest IH]; cbn [c_string].
  - split; [intros _ [] | reflexivity].
  - destruct (byte_eqb c x00) eqn:E.
    + apply byte_eqb_eq in E. subst c. split; [discriminate|].
      intros H. exfalso. apply H. now left.
    + apply byte_eqb_neq in E.
      destruct (c_string rest) as [s|err|] eqn:Ec; cbn [bind].
      * split; [discriminate|]. intros H. exfalso.
        assert (Hr : ~ In x00 rest) by (intros Hin; apply H; now right).
        apply IH in Hr. discriminate.
      * split; [discriminate|]. intros H. exfalso.
        assert (Hr : ~ In x00 rest) by (intros Hin; apply H; now right).
        apply IH in Hr. discriminate.
      * split; [|reflexivity]. intros _ [H|H]; [congruence|].
        revert H. now apply IH.
Qed.

(** X15. A stego file whose located header has a name array without a
    NUL byte makes [extractFile] read past the array (undefined
    behaviour) instead of raising an exception; and that is the only
    way it gets there: the header found then passes [validate] and its
    256 name bytes hold no terminator. *)
Theorem extractFile_reads_past_an_unterminated_name
        (fs : FileSystem) (stego out : list byte) :
  (forall data h payload,
      stego <> [] ->
      contents fs stego = Some data ->
      snd (extractData data) = Ok (h, payload) ->
      ~ In x00 (filename h) ->
      extractFile fs stego out = Undefined)
  /\
  (extractFile fs stego out = Undefined ->
   exists data k,
     contents fs stego = Some data /\
     valid_at data k = true /\
     ~ In x00 (filename (window data k))).
Proof.
  split.
  - intros data h payload Hne Hc Hx Hnul. unfold extractFile.
    rewrite (validateFileAccess_ok fs stego data) by assumption.
    cbn [bind]. unfold FileIOManager.readFile. rewrite Hc. cbn [bind].
    rewrite Hx. cbn [bind].
    apply c_string_undefined in Hnul. now rewrite Hnul.
  - unfold extractFile, FileValidator.validateFileAccess, Utils.fileExists,
      FileIOManager.readFile.
    destruct stego as [|b rest]; [discriminate|].
    destruct (contents fs (b :: rest)) as [data|] eqn:Hc; [|discriminate].
    cbn [negb bind].
    destruct (snd (extractData data)) as [[h payload]|err|] eqn:Hx;
      cbn [bind]; [|discriminate|now destruct (extractData_defined data)].
    destruct (c_string (filename h)) as [name|err|] eqn:Hn; cbn [bind].
    + unfold FileIOManager.writeFile.
      destruct (creatable fs _); discriminate.
    + discriminate.
    + intros _. apply c_string_undefined in Hn.
      destruct (Z.ltb_spec (Z.of_nat (length data)) HEADER_SIZE) as [Hs|Hl].
      * unfold extractData in Hx.
        replace (Z.of_nat (length data) <? HEADER_SIZE) with true in Hx
          by (symmetry; now apply Z.ltb_lt).
        discriminate.
      * destruct (scan_loop_spec data (scan_start data)
                    (scan_start_bound data Hl))
          as [[k [E [_ [Hv _]]]] | [E _]].
        -- rewrite (extractData_found data k Hl) in Hx by (now rewrite E).
           destruct (_ >? _) in Hx; [discriminate|].
           apply Ok_inj in Hx.
           exists data, k. split; [reflexivity|]. split; [exact Hv|].
           congruence.
        -- rewrite extractData_unfold in Hx by exact Hl.
           rewrite E in Hx. discriminate.
Qed.

Lemma extractFile_reads_past_an_unterminated_name_witness :
  extractFile foreign_fs (str "f.bin") (str "out") = Undefined.
Proof.
  apply (proj1 (extractFile_reads_past_an_unterminated_name
                  foreign_fs (str "f.bin") (str "out"))
               foreign_stego foreign_header (str "hello")).
  - discriminate.
  - reflexivity.
  - vm_compute. reflexivity.
  - intros Hin. vm_compute in Hin.
    repeat (destruct Hin as [Hin|Hin]; [discriminate Hin|]). exact Hin.
Defined.

(* ================================================================== *)
(** * The command line *)
(* ================================================================== *)












(** X18. The command line round trip: after [encode cover secret out]
    has run, [decode] on the file it wrote, under the usual conditions
    (a payload within the capacity and below 2^32 bytes, a NUL-free
    name, no valid window behind the start of the header, writable
    paths), exits with 0 as well and leaves the secret's bytes in the
    file named after the secret's final component. *)
Theorem cli_encode_then_decode
        (junk : nat -> byte) (fs : FileSystem)
        (prog cover secret out out2 payload hostData : list byte)
        (capacity : Z)
        (Hsecret : contents fs secret = Some payload)
        (Hcover : contents fs cover = Some hostData)
        (Hpaths : secret <> [] /\ cover <> [])
        (Hsize : FileValidator.validateAndCalculateMaxSize
                   (Z.of_nat (length payload)) (Z.of_nat (length hostData))
                 = Ok capacity)
        (Hnul : ~ In x00 (Utils.extractFilename secret))
        (H32 : Z.of_nat (length payload) < 2 ^ 32)
        (Hlast : forall r, (1 <= r <= length payload)%nat ->
                   valid_at (serializeHeader junk
                               (createHeader secret (Z.of_nat (length payload)))
                             ++ payload) r = false)
        (Hcreate : forall p, creatable fs p = true) :
  let stego :=
    Utils.generateOutputFilename out (Utils.extractFilename cover) in
  let restored :=
    Utils.generateOutputFilename out2
      (firstn 255 (Utils.extractFilename secret)) in
  exists fs1 fs2,
    main junk fs [prog; str "encode"; cover; secret; out] = Ok (fs1, 0) /\
    main junk fs1 [prog; str "decode"; stego; out2] = Ok (fs2, 0) /\
    contents fs2 restored = Some payload.
Proof.
  intros stego restored.
  destruct Hpaths as [Hp1 Hp2].
  set (h := createHeader secret (Z.of_nat (length payload))) in *.
  set (data := hostData ++ serializeHeader junk h ++ payload).
  set (fs1 := mkFS (fun p => if path_eqb p stego then Some data
                             else contents fs p) (creatable fs)).
  set (fs2 := mkFS (fun p => if path_eqb p restored then Some payload
                             else contents fs1 p) (creatable fs1)).
  assert (Hhide : hideFile junk fs secret cover out = Ok (fs1, stego)).
  { unfold hideFile.
    rewrite (validateFileAccess_ok fs secret payload) by assumption.
    rewrite (validateFileAccess_ok fs cover hostData) by assumption.
    cbn [bind]. unfold Utils.getFileSize, FileIOManager.readFile.
    rewrite Hsecret, Hcover, Hsize. cbn [bind].
    unfold FileIOManager.writeFile. fold stego. rewrite Hcreate.
    reflexivity. }
  assert (Hdata : contents fs1 stego = Some data).
  { cbn [fs1 contents]. now rewrite path_eqb_refl. }
  assert (Hext : snd (extractData data) = Ok (h, payload)).
  { apply extractData_embed; try assumption.
    apply validate_min_host in Hsize. unfold Config.MIN_HOST_SIZE in Hsize. lia. }
  destruct (createHeader_name secret (Z.of_nat (length payload)) Hnul)
    as [Hc _]. fold h in Hc.
  assert (Hextract : extractFile fs1 stego out2 = Ok (fs2, restored)).
  { unfold extractFile.
    rewrite (validateFileAccess_ok fs1 stego data)
      by (assumption || apply generateOutputFilename_nonempty).
    cbn [bind]. unfold FileIOManager.readFile. rewrite Hdata. cbn [bind].
    rewrite Hext. cbn [bind]. rewrite Hc. cbn [bind].
    unfold FileIOManager.writeFile. fold restored.
    replace (creatable fs1 restored) with true
      by (symmetry; apply Hcreate).
    reflexivity. }
  exists fs1, fs2. split; [|split].
  - unfold main. cbn [length Nat.ltb Nat.leb Nat.eqb negb nth].
    rewrite path_eqb_refl, Hhide. reflexivity.
  - unfold main. cbn [length Nat.ltb Nat.leb Nat.eqb negb nth].
    replace (path_eqb (str "decode") (str "encode")) with false
      by reflexivity.
    rewrite path_eqb_refl, Hextract. reflexivity.
  - cbn [fs2 contents]. now rewrite path_eqb_refl.
Qed.

Lemma cli_encode_then_decode_witness :
  exists fs1 fs2,
    main zero_junk sample_fs
         [str "stego"; str "encode"; str "pics/Host.PNG";
          str "notes/msg.txt"; str "out"] = Ok (fs1, 0) /\
    main zero_junk fs1
         [str "stego"; str "decode";
          Utils.generateOutputFilename (str "out")
            (Utils.extractFilename (str "pics/Host.PNG"));
          str "back"] = Ok (fs2, 0) /\
    contents fs2
      (Utils.generateOutputFilename (str "back")
         (firstn 255 (Utils.extractFilename (str "notes/msg.txt"))))
    = Some (str "hello").
Proof.
  refine (cli_encode_then_decode
            zero_junk sample_fs (str "stego") (str "pics/Host.PNG")
            (str "notes/msg.txt") (str "out") (str "back") (str "hello")
            host_10k 8428 _ _ _ _ _ _ _ _).
  - reflexivity.
  - reflexivity.
  - split; discriminate.
  - vm_compute. reflexivity.
  - intros Hin. vm_compute in Hin.
    repeat (destruct Hin as [Hin|Hin]; [discriminate Hin|]). exact Hin.
  - vm_compute. reflexivity.
  - intros r Hr.
    assert (C : r = 1%nat \/ r = 2%nat \/ r = 3%nat \/ r = 4%nat \/ r = 5%nat).
    { change (length (str "hello")) with 5%nat in Hr. lia. }
    destruct C as [->|[->|[->|[->| ->]]]]; vm_compute; reflexivity.
  - intros p. reflexivity.
Defined.

(* ================================================================== *)
(** * The interactive front end *)
(* ================================================================== *)

Lemma generateOutputFilename_verbatim (out original : list byte) :
  Utils.hasExtension out = true ->
  Utils.generateOutputFilename out original = out.
Proof.
  intros H. unfold Utils.generateOutputFilename.
  destruct out; [discriminate H|]. now rewrite H.
Qed.

(** X19. The two programs embed alike when the output path has a file
    extension: the interactive [hideFile], which writes to the path as
    given, then returns what the command line's [hideFile] returns.  For
    a non-empty path without extension they part: the interactive one
    writes to the path itself, the command line to the path with the
    host's extension appended. *)
Theorem interactive_hide_agrees_on_paths_with_extension
        (junk : nat -> byte) (fs : FileSystem)
        (hidden host out : list byte) :
  (Utils.hasExtension out = true ->
   Interactive.hideFile junk fs hidden host out
     = hideFile junk fs hidden host out)
  /\
  (out <> [] -> Utils.hasExtension out = false ->
   forall fs1 p1 fs2 p2,
     Interactive.hideFile junk fs hidden host out = Ok (fs1, p1) ->
     hideFile junk fs hidden host out = Ok (fs2, p2) ->
     p1 = out /\
     p2 = out ++ Utils.getExtension (Utils.extractFilename host)).
Proof.
  split.
  - intros Hext. unfold Interactive.hideFile, hideFile.
    now rewrite generateOutputFilename_verbatim.
  - intros Hne Hext fs1 p1 fs2 p2 Hi Hc.
    apply hideFile_output_path in Hc. split.
    + unfold Interactive.hideFile in Hi.
      destruct (FileValidator.validateFileAccess fs hidden _); [|discriminate..].
      destruct (FileValidator.validateFileAccess fs host _); [|discriminate..].
      cbn [bind] in Hi.
      destruct (FileValidator.validateAndCalculateMaxSize _ _); [|discriminate..].
      cbn [bind] in Hi.
      destruct (FileIOManager.readFile fs host); [|discriminate..].
      destruct (FileIOManager.readFile fs hidden); [|discriminate..].
      cbn [bind] in Hi.
      destruct (FileIOManager.writeFile fs _ _); [|discriminate..].
      cbn [bind] in Hi. apply Ok_inj in Hi. congruence.
    + rewrite Hc. unfold Utils.generateOutputFilename.
      destruct out; [contradiction|]. now rewrite Hext.
Qed.

Lemma interactive_hide_agrees_on_paths_with_extension_witness :
  Interactive.hideFile zero_junk sample_fs (str "notes/msg.txt")
    (str "pics/Host.PNG") (str "out.png")
  = hideFile zero_junk sample_fs (str "notes/msg.txt")
      (str "pics/Host.PNG") (str "out.png").
Proof.
  apply (proj1 (interactive_hide_agrees_on_paths_with_extension
                  zero_junk sample_fs (str "notes/msg.txt")
                  (str "pics/Host.PNG") (str "out.png"))).
  reflexivity.
Defined.

(** X20. The two programs extract alike when the output path is empty
    or has a file extension: whenever the command line's [extractFile]
    completes, the interactive one completes with the same file and the
    same path. *)
Theorem interactive_extract_agrees
        (fs fs' : FileSystem) (stego out p : list byte)
        (Hout : out = [] \/ Utils.hasExtension out = true)
        (Hcli : extractFile fs stego out = Ok (fs', p)) :
  Interactive.extractFile fs stego out = Ok (fs', p).
Proof.
  revert Hcli. unfold Interactive.extractFile, extractFile.
  destruct (FileValidator.validateFileAccess fs stego _); [|discriminate..].
  cbn [bind].
  destruct (FileIOManager.readFile fs stego) as [data| |]; [|discriminate..].
  cbn [bind].
  destruct (snd (extractData data)) as [[h payload]| |]; [|discriminate..].
  cbn [bind].
  destruct (c_string (filename h)) as [name| |] eqn:Hn; [|discriminate..].
  cbn [bind].
  destruct Hout as [-> | Hext].
  - cbn [Utils.generateOutputFilename bind]. intros H. exact H.
  - rewrite generateOutputFilename_verbatim by exact Hext.
    destruct out as [|b rest]; [discriminate Hext|]. cbn [bind].
    intros H. exact H.
Qed.

Lemma interactive_extract_agrees_witness :
  Interactive.extractFile stego_fs (str "s.bin") (str "o.txt")
  = Ok (mkFS (fun p => if path_eqb p (str "o.txt") then Some (str "hello")
                       else contents stego_fs p)
             (creatable stego_fs),
        str "o.txt").
Proof.
  apply (interactive_extract_agrees stego_fs).
  - right. reflexivity.
  - vm_compute. reflexivity.
Defined.

(** X21. The interactive round trip with both output paths left empty:
    [handleHideFile] writes to "stego_" followed by the host's final
    component, and [handleExtractFile] on that file, under the usual
    conditions, writes the payload to "extracted_" followed by the
    payload's final component (cut to 255 bytes). *)
Theorem interactive_round_trip_with_default_names
        (junk : nat -> byte) (fs : FileSystem)
        (hidden host payload hostData : list byte) (capacity : Z)
        (Hhidden : contents fs hidden = Some payload)
        (Hhost : contents fs host = Some hostData)
        (Hpaths : hidden <> [] /\ host <> [])
        (Hsize : FileValidator.validateAndCalculateMaxSize
                   (Z.of_nat (length payload)) (Z.of_nat (length hostData))
                 = Ok capacity)
        (Hnul : ~ In x00 (Utils.extractFilename hidden))
        (H32 : Z.of_nat (length payload) < 2 ^ 32)
        (Hlast : forall r, (1 <= r <= length payload)%nat ->
                   valid_at (serializeHeader junk
                               (createHeader hidden (Z.of_nat (length payload)))
                             ++ payload) r = false)
        (Hcreate : forall p, creatable fs p = true) :
  let stego := str "stego_" ++ Utils.extractFilename host in
  let restored :=
    str "extracted_" ++ firstn 255 (Utils.extractFilename hidden) in
  exists fs1 fs2,
    Interactive.handleHideFile junk fs hidden host [] = Ok (fs1, stego) /\
    Interactive.handleExtractFile fs1 stego [] = Ok (fs2, restored) /\
    contents fs2 restored = Some payload.
Proof.
  intros stego restored.
  destruct Hpaths as [Hp1 Hp2].
  set (h := createHeader hidden (Z.of_nat (length payload))) in *.
  set (data := hostData ++ serializeHeader junk h ++ payload).
  set (fs1 := mkFS (fun p => if path_eqb p stego then Some data
                             else contents fs p) (creatable fs)).
  set (fs2 := mkFS (fun p => if path_eqb p restored then Some payload
                             else contents fs1 p) (creatable fs1)).
  assert (Hdata : contents fs1 stego = Some data).
  { cbn [fs1 contents]. now rewrite path_eqb_refl. }
  assert (Hext : snd (extractData data) = Ok (h, payload)).
  { apply extractData_embed; try assumption.
    apply validate_min_host in Hsize. unfold Config.MIN_HOST_SIZE in Hsize. lia. }
  destruct (createHeader_name hidden (Z.of_nat (length payload)) Hnul)
    as [Hc _]. fold h in Hc.
  exists fs1, fs2. split; [|split].
  - unfold Interactive.handleHideFile, Interactive.hideFile.
    rewrite (validateFileAccess_ok fs hidden payload) by assumption.
    rewrite (validateFileAccess_ok fs host hostData) by assumption.
    cbn [bind]. unfold Utils.getFileSize, FileIOManager.readFile.
    rewrite Hhidden, Hhost, Hsize. cbn [bind].
    unfold FileIOManager.writeFile. fold stego. rewrite Hcreate.
    reflexivity.
  - unfold Interactive.handleExtractFile, Interactive.extractFile.
    rewrite (validateFileAccess_ok fs1 stego data)
      by (assumption || discriminate).
    cbn [bind]. unfold FileIOManager.readFile. rewrite Hdata. cbn [bind].
    rewrite Hext. cbn [bind]. rewrite Hc. cbn [bind].
    unfold FileIOManager.writeFile. fold restored.
    replace (creatable fs1 restored) with true
      by (symmetry; apply Hcreate).
    reflexivity.
  - cbn [fs2 contents]. now rewrite path_eqb_refl.
Qed.

Lemma interactive_round_trip_with_default_names_witness :
  exists fs1 fs2,
    Interactive.handleHideFile zero_junk sample_fs (str "notes/msg.txt")
      (str "pics/Host.PNG") []
    = Ok (fs1, str "stego_" ++ Utils.extractFilename (str "pics/Host.PNG")) /\
    Interactive.handleExtractFile fs1
      (str "stego_" ++ Utils.extractFilename (str "pics/Host.PNG")) []
    = Ok (fs2, str "extracted_"
                 ++ firstn 255 (Utils.extractFilename (str "notes/msg.txt"))) /\
    contents fs2
      (str "extracted_"
         ++ firstn 255 (Utils.extractFilename (str "notes/msg.txt")))
    = Some (str "hello").
Proof.
  refine (interactive_round_trip_with_default_names
            zero_junk sample_fs (str "notes/msg.txt") (str "pics/Host.PNG")
            (str "hello") host_10k 8428 _ _ _ _ _ _ _ _).
  - reflexivity.
  - reflexivity.
  - split; discriminate.
  - vm_compute. reflexivity.
  - intros Hin. vm_compute in Hin.
    repeat (destruct Hin as [Hin|Hin]; [discriminate Hin|]). exact Hin.
  - vm_compute. reflexivity.
  - intros r Hr.
    assert (C : r = 1%nat \/ r = 2%nat \/ r = 3%nat \/ r = 4%nat \/ r = 5%nat).
    { change (length (str "hello")) with 5%nat in Hr. lia. }
    destruct C as [->|[->|[->|[->| ->]]]]; vm_compute; reflexivity.
  - intros p. reflexivity.
Defined.

Lemma firstn_length_firstn {A : Type} (n : nat) (l : list A) :
  firstn (length (firstn n l)) l = firstn n l.
Proof.
  revert l. induction n as [|n IH]; intros [|a l]; cbn; try reflexivity.
  now rewrite IH.
Qed.

(** X22. [readFileChunk] on an existing file reads the bytes from
    [offset] on, as many as asked for or as the file has left; the
    buffer comes back with exactly [size] elements, the bytes read in
    front, and behind them what the resized buffer held before (on a
    short read the rest is not cleared). *)
Theorem readFileChunk_reads_the_requested_range
        (fs : FileSystem) (filename buffer d : list byte) (offset size : nat)
        (Hfile : contents fs filename = Some d) :
  exists buffer' count,
    Interactive.readFileChunk fs filename buffer offset size
      = Ok (buffer', count) /\
    count = Nat.min size (length d - offset) /\
    length buffer' = size /\
    firstn count buffer' = slice d offset count /\
    skipn count buffer' = skipn count (Interactive.resize buffer size).
Proof.
  unfold Interactive.readFileChunk. rewrite Hfile.
  set (got := firstn size (skipn offset d)).
  assert (Hgot : length got = Nat.min size (length d - offset)).
  { unfold got. now rewrite length_firstn, length_skipn. }
  assert (Hres : length (Interactive.resize buffer size) = size).
  { unfold Interactive.resize.
    rewrite length_app, length_firstn, repeat_length. lia. }
  exists (got ++ skipn (length got) (Interactive.resize buffer size)),
         (length got).
  split; [reflexivity|]. split; [exact Hgot|]. split; [|split].
  - rewrite length_app, length_skipn, Hres. lia.
  - rewrite firstn_app, Nat.sub_diag, firstn_O, app_nil_r, firstn_all.
    unfold slice, got. now rewrite firstn_length_firstn.
  - rewrite skipn_app, Nat.sub_diag, skipn_all. reflexivity.
Qed.

Lemma readFileChunk_reads_the_requested_range_witness :
  exists buffer' count,
    Interactive.readFileChunk sample_fs (str "notes/msg.txt")
      (str "ABCDEFGH") 3 6 = Ok (buffer', count) /\
    count = Nat.min 6 (length (str "hello") - 3) /\
    length buffer' = 6%nat /\
    firstn count buffer' = slice (str "hello") 3 count /\
    skipn count buffer'
      = skipn count (Interactive.resize (str "ABCDEFGH") 6).
Proof.
  apply (readFileChunk_reads_the_requested_range sample_fs
           (str "notes/msg.txt") (str "ABCDEFGH") (str "hello") 3 6).
  reflexivity.
Defined.
